(** * WebXRTest utility scripts: [add_border.py] and [merge_json.py]

    A shallow embedding of the two Python scripts of the repository and the
    properties of their observable behaviour.

    - Python [int] is [Z]; Python [float] is IEEE-754 binary64, taken from
      the Standard Library's executable specification [SpecFloat]
      (precision 53, maximal exponent 1024, round to nearest even).
    - Statements run in a state-and-exception monad over a [World]: the file
      system, the store of list objects, and the trace of library calls and
      printed lines.
    - Pillow ([Image.open], [ImageOps.expand], [Image.save]), the built-in
      [open] and the [json] module are external collaborators. Their
      documented behaviour is written out; the failures that depend on the
      machine (permissions, memory, codecs) are read from a [Host]. *)

From Stdlib Require Import ZArith QArith Qround Qpower Qabs Qfield Lia.
From Stdlib Require Import Floats.SpecFloat.
From stdpp Require Import gmap strings list pretty.

Set Warnings "-register-all".
Open Scope Z_scope.

(** ** Exceptions *)

(** The exception classes the two scripts can meet. [KeyboardInterrupt] and
    [SystemExit] derive from [BaseException] only; every other class derives
    from [Exception]. *)
Inductive exn_class :=
| FileNotFoundError
| PermissionError
| OSError
| UnidentifiedImageError
| ValueError
| TypeError
| OverflowError
| ZeroDivisionError
| MemoryError
| KeyboardInterrupt
| SystemExit.

Record exn := Exn { exn_cls : exn_class; exn_msg : string }.

(** [isinstance(e, Exception)] *)
Definition is_Exception (e : exn) : bool :=
  match exn_cls e with
  | KeyboardInterrupt | SystemExit => false
  | _ => true
  end.

Inductive outcome (A : Type) :=
| Returned (a : A)
| Raised (e : exn).
Arguments Returned {A} a.
Arguments Raised {A} e.

Definition outcome_bind {A B} (o : outcome A) (k : A -> outcome B) : outcome B :=
  match o with
  | Returned a => k a
  | Raised e => Raised e
  end.

(** ** Numbers *)

Definition prec : Z := 53.
Definition emax : Z := 1024.

Abbreviation float := spec_float.

(** A numeric argument: a Python [int] or a Python [float]. *)
Inductive pynum :=
| PyInt (n : Z)
| PyFloat (x : float).

(** [float(n)] for an [int]: correctly rounded, [OverflowError] beyond the
    largest binary64. *)
Definition int_to_float (n : Z) : outcome float :=
  match binary_normalize prec emax n 0 false with
  | S754_infinity _ => Raised (Exn OverflowError "int too large to convert to float")
  | x => Returned x
  end.

(** [n * r] for an [int] [n]: exact on two ints; with a float, the int is
    converted and the product is the binary64 product. *)
Definition int_mul (n : Z) (r : pynum) : outcome pynum :=
  match r with
  | PyInt k => Returned (PyInt (n * k))
  | PyFloat x =>
      match int_to_float n with
      | Returned fn => Returned (PyFloat (SFmul prec emax fn x))
      | Raised e => Raised e
      end
  end.

(** [int(x)]: the identity on an int; on a float, truncation towards zero,
    [ValueError] on NaN and [OverflowError] on an infinity. *)
Definition py_int (x : pynum) : outcome Z :=
  match x with
  | PyInt n => Returned n
  | PyFloat S754_nan => Raised (Exn ValueError "cannot convert float NaN to integer")
  | PyFloat (S754_infinity _) =>
      Raised (Exn OverflowError "cannot convert float infinity to integer")
  | PyFloat (S754_zero _) => Returned 0
  | PyFloat (S754_finite s m e) => Returned (cond_Zopp s (Z.shiftl (Zpos m) e))
  end.

(** An integer as an (unnormalised) float with exponent 0. *)
Definition Z2SF (n : Z) : float :=
  match n with
  | Z0 => S754_zero false
  | Zpos p => S754_finite false p 0
  | Zneg p => S754_finite true p 0
  end.

(** [a / b] on two ints (true division): the correctly rounded quotient,
    [ZeroDivisionError] on [b = 0], [OverflowError] when the quotient is
    beyond the largest binary64. *)
Definition int_truediv (a b : Z) : outcome float :=
  if b =? 0 then Raised (Exn ZeroDivisionError "division by zero")
  else
    match SFdiv prec emax (Z2SF a) (Z2SF b) with
    | S754_infinity _ =>
        Raised (Exn OverflowError "integer division result too large for a float")
    | q => Returned q
    end.

(** [r >= 0] *)
Definition py_ge0 (r : pynum) : bool :=
  match r with
  | PyInt k => 0 <=? k
  | PyFloat x => SFleb (S754_zero false) x
  end.

(** The rational number a finite float stands for (0 for the others). *)
Definition SF2Q (x : float) : Q :=
  match x with
  | S754_finite s m e => (inject_Z (cond_Zopp s (Zpos m)) * Qpower 2 e)%Q
  | _ => 0%Q
  end.

Definition pynum2Q (x : pynum) : Q :=
  match x with
  | PyInt n => inject_Z n
  | PyFloat f => SF2Q f
  end.

(** A number with a rational value: an int, or a float that is neither NaN
    nor an infinity. *)
Definition py_finite (x : pynum) : bool :=
  match x with
  | PyInt _ => true
  | PyFloat (S754_zero _) | PyFloat (S754_finite _ _ _) => true
  | PyFloat _ => false
  end.

(** [floor(n * r)], where [n * r] is the product the script computes: an
    exact int when [r] is an int, the binary64 product when [r] is a float.
    It is defined when that product has a value. *)
Definition floor_mul (n : Z) (r : pynum) : option Z :=
  match int_mul n r with
  | Returned p => if py_finite p then Some (Qfloor (pynum2Q p)) else None
  | Raised _ => None
  end.

(** ** Images *)

Definition colour : Type := Z * Z * Z.
Definition white : colour := (255, 255, 255).

(** A Pillow image: its size and its pixels. *)
Record Image := mkImage {
  width : Z;
  height : Z;
  getpixel : Z -> Z -> colour
}.

Definition size (img : Image) : Z * Z := (width img, height img).

(** ** JSON and the values of records *)

(** The Python values a record can be made of. [PObject] is any object of
    another type (a set, bytes, an instance of a class). A dict keeps its
    entries in insertion order. *)
Inductive pyval :=
| PNone
| PBool (b : bool)
| PInt (n : Z)
| PFloat (x : float)
| PStr (s : string)
| PList (items : list pyval)
| PTuple (items : list pyval)
| PDict (entries : list (pyval * pyval))
| PObject (type_name : string).

(** A JSON document, as the value its text denotes. The text of a number
    tells an int from a float, and Python's float [repr] reads back as the
    same binary64, so a number is kept as its value. *)
Inductive json :=
| JNull
| JBool (b : bool)
| JInt (n : Z)
| JFloat (x : float)
| JString (s : string)
| JArray (items : list json)
| JObject (members : list (string * json)).

(** ** The world *)

Inductive file :=
| FImage (img : Image)
| FJson (doc : json)
| FPartial
| FOther.

(** A formatted string literal: its literal text and its replacement fields. *)
Inductive fpart :=
| Lit (s : string)
| FmtStr (s : string)
| FmtInt (n : Z)
| FmtFloat (x : float)
| FmtSize (sz : Z * Z)
| FmtExn (e : exn).

Definition line := list fpart.

Inductive event :=
| CallImageOpen (path : string)
| CallExpand (border : Z * Z)
| CallSave (path : string)
| CallOpenW (path : string)
| CallJsonDump
| Wrote (path : string) (f : file)
| Printed (l : line)
| Traceback (e : exn).

Definition loc := positive.

Record World := mkWorld {
  files : gmap string file;
  heap : gmap loc (list pyval);
  trace : list event
}.

(** What the machine decides: failures of the libraries that do not follow
    from the arguments, and the text of a float. *)
Record Host := mkHost {
  open_fault : string -> option exn;
  expand_fault : Image -> Z * Z -> option exn;
  save_fault : Image -> string -> option (exn * bool);
  open_w_fault : string -> option exn;
  float_repr : float -> string
}.

Definition M (A : Type) : Type := World -> outcome A * World.

Definition ret {A} (a : A) : M A := fun w => (Returned a, w).

Definition raise {A} (e : exn) : M A := fun w => (Raised e, w).

Definition bind {A B} (c : M A) (k : A -> M B) : M B :=
  fun w =>
    match c w with
    | (Returned a, w') => k a w'
    | (Raised e, w') => (Raised e, w')
    end.

Notation "'let!' x ':=' c 'in' k" := (bind c (fun x => k))
  (at level 10, x pattern, c at level 100, k at level 200).
Notation "c ';;' k" := (bind c (fun _ => k))
  (at level 100, k at level 200, right associativity).

Definition lift {A} (o : outcome A) : M A := fun w => (o, w).

Definition emit (ev : event) : M unit :=
  fun w => (Returned tt, mkWorld (files w) (heap w) (trace w ++ [ev])).

Definition print (l : line) : M unit := emit (Printed l).

(** [try: body  except Exception as e: handler e] *)
Definition try_except {A} (body : M A) (handler : exn -> M A) : M A :=
  fun w =>
    match body w with
    | (Raised e, w') => if is_Exception e then handler e w' else (Raised e, w')
    | r => r
    end.

Definition write_file (path : string) (f : file) : M unit :=
  fun w =>
    (Returned tt, mkWorld (<[path := f]> (files w)) (heap w) (trace w ++ [Wrote path f])).

(** The lines printed so far. *)
Definition stdout (w : World) : list line :=
  omap (fun ev => match ev with Printed l => Some l | _ => None end) (trace w).

(** What a run from [w] to [w'] added to the trace. *)
Definition new_events (w w' : World) : list event :=
  drop (length (trace w)) (trace w').

(** ** Pillow *)

(** [Image.open(path)]: the file must exist, be readable and hold an image.
    The images of the file map are those Pillow identifies; it identifies no
    image of width or height 0, and a file with such a header is one of the
    other files. The statements on the size and the ratio are about images
    of positive width and height. *)
Definition Image_open (h : Host) (path : string) : M Image :=
  emit (CallImageOpen path);;
  fun w =>
    match files w !! path with
    | None =>
        (Raised (Exn FileNotFoundError
                   ("[Errno 2] No such file or directory: '" +:+ path +:+ "'")), w)
    | Some f =>
        match open_fault h path with
        | Some e => (Raised e, w)
        | None =>
            match f with
            | FImage img => (Returned img, w)
            | _ =>
                (Raised (Exn UnidentifiedImageError
                           ("cannot identify image file '" +:+ path +:+ "'")), w)
            end
        end
    end.

(** [ImageOps.expand(image, border=(bw, bh), fill=fill)]: a two-element
    border is (left, top) and also (right, bottom); a new image of the
    enlarged size is filled with [fill] and the source is pasted at
    (left, top). [Image.new] refuses a negative size. *)
Definition ImageOps_expand (h : Host) (image : Image) (border : Z * Z) (fill : colour)
  : M Image :=
  emit (CallExpand border);;
  let left := fst border in
  let top := snd border in
  let right := fst border in
  let bottom := snd border in
  let width' := left + width image + right in
  let height' := top + height image + bottom in
  if (width' <? 0) || (height' <? 0)
  then raise (Exn ValueError "Width and height must be >= 0")
  else
    match expand_fault h image border with
    | Some e => raise e
    | None =>
        ret (mkImage width' height'
               (fun x y =>
                  if (left <=? x) && (x <? left + width image)
                     && (top <=? y) && (y <? top + height image)
                  then getpixel image (x - left) (y - top)
                  else fill))
    end.

(** [img.save(path)]: on success the file holds the image; a failure leaves
    the file system as it was or, when the host says so, a partial file.
    The host is given the image: the refusal of Pillow to write an image of
    width or height 0 is one of its faults, and a host without faults is
    more permissive than Pillow on such an image only. *)
Definition Image_save (h : Host) (img : Image) (path : string) : M unit :=
  emit (CallSave path);;
  match save_fault h img path with
  | Some (e, false) => raise e
  | Some (e, true) => write_file path FPartial;; raise e
  | None => write_file path (FImage img)
  end.

(** ** add_border.py *)

(** The statements under [try:]. *)
Definition add_border_body (h : Host) (input_path output_path : string)
  (border_ratio : pynum) : M unit :=
    (let! img := Image_open h input_path in
     let! border_width :=
       lift (outcome_bind (int_mul (width img) border_ratio) py_int) in
     let! border_height :=
       lift (outcome_bind (int_mul (height img) border_ratio) py_int) in
     let! img_with_border :=
       ImageOps_expand h img (border_width, border_height) white in
     Image_save h img_with_border output_path;;
     print [Lit "Created "; FmtStr output_path; Lit " with size ";
            FmtSize (size img_with_border)];;
     let! ratio := lift (int_truediv (width img + 2 * border_width) (width img)) in
     print [Lit "Width Ratio: "; FmtFloat ratio]).

Definition add_border (h : Host) (input_path output_path : string) (border_ratio : pynum)
  : M unit :=
  try_except (add_border_body h input_path output_path border_ratio)
    (fun e => print [Lit "Error: "; FmtExn e]).

(** The default of the parameter: the binary64 nearest to 0.2. *)
Definition default_border_ratio : pynum :=
  PyFloat (S754_finite false 7205759403792794 (-55)).

(** The call under [if __name__ == "__main__"], with 0.25. *)
Definition add_border_main (h : Host) : M unit :=
  add_border h "public/tag25h9-origin.png" "public/tag-with-border.png"
    (PyFloat (S754_finite false 4503599627370496 (-54))).

(** The interpreter running a script: status 0 when the script ends, a
    traceback and status 1 when an instance of [Exception] reaches the top.
    (How the interpreter ends on [SystemExit] and [KeyboardInterrupt] is not
    modelled: they are given the same ending.) *)
Definition python (script : M unit) (w : World) : Z * World :=
  match script w with
  | (Returned _, w') => (0, w')
  | (Raised e, w') => (1, mkWorld (files w') (heap w') (trace w' ++ [Traceback e]))
  end.

(** ** The json module *)

Definition mapM_outcome {A B} (f : A -> outcome B) : list A -> outcome (list B) :=
  fix go l :=
    match l with
    | [] => Returned []
    | x :: l' =>
        match f x with
        | Raised e => Raised e
        | Returned y =>
            match go l' with
            | Raised e => Raised e
            | Returned ys => Returned (y :: ys)
            end
        end
    end.

(** [type(v).__name__] *)
Definition type_name_of (v : pyval) : string :=
  match v with
  | PNone => "NoneType"
  | PBool _ => "bool"
  | PInt _ => "int"
  | PFloat _ => "float"
  | PStr _ => "str"
  | PList _ => "list"
  | PTuple _ => "tuple"
  | PDict _ => "dict"
  | PObject n => n
  end.

(** The name of an object member for a dict key: a str is kept, a float,
    a bool, None and an int are turned into text, any other key is refused. *)
Definition json_key (h : Host) (k : pyval) : outcome string :=
  match k with
  | PStr s => Returned s
  | PFloat x => Returned (float_repr h x)
  | PBool true => Returned "true"
  | PBool false => Returned "false"
  | PNone => Returned "null"
  | PInt n => Returned (pretty n)
  | _ => Raised (Exn TypeError ("keys must be str, int, float, bool or None, not "
                                  +:+ type_name_of k))
  end.

(** The encoder of [json.dump]: None, bools, ints, floats and strs to the
    JSON scalars, a list and a tuple to an array, a dict to an object; any
    other object is refused. Values are visited in order and the first
    refusal ends the traversal. The limits of the interpreter are left out:
    the number of digits of an int that [str] converts and the depth of the
    recursion. *)
Fixpoint json_encode (h : Host) (v : pyval) : outcome json :=
  match v with
  | PNone => Returned JNull
  | PBool b => Returned (JBool b)
  | PInt n => Returned (JInt n)
  | PFloat x => Returned (JFloat x)
  | PStr s => Returned (JString s)
  | PList items | PTuple items =>
      match mapM_outcome (json_encode h) items with
      | Returned js => Returned (JArray js)
      | Raised e => Raised e
      end
  | PDict entries =>
      match mapM_outcome
              (fun kv : pyval * pyval =>
                 match json_key h (fst kv) with
                 | Raised e => Raised e
                 | Returned name =>
                     match json_encode h (snd kv) with
                     | Raised e => Raised e
                     | Returned j => Returned (name, j)
                     end
                 end) entries with
      | Returned ms => Returned (JObject ms)
      | Raised e => Raised e
      end
  | PObject n =>
      Raised (Exn TypeError ("Object of type " +:+ n +:+ " is not JSON serializable"))
  end.

(** [d[k] = v] on the entries of a dict with str keys: an existing key keeps
    its place and takes the new value, a new key goes last. *)
Fixpoint dict_set (k : string) (v : pyval) (d : list (string * pyval))
  : list (string * pyval) :=
  match d with
  | [] => [(k, v)]
  | (k', v') :: d' =>
      if String.eqb k k' then (k', v) :: d' else (k', v') :: dict_set k v d'
  end.

Definition dict_of_members (ms : list (string * pyval)) : list (string * pyval) :=
  fold_left (fun d kv => dict_set (fst kv) (snd kv) d) ms [].

(** The decoder ([json.load]): null, booleans, numbers and strings to None,
    bool, int or float, and str; an array to a list; an object to a dict. *)
Fixpoint json_decode (j : json) : pyval :=
  match j with
  | JNull => PNone
  | JBool b => PBool b
  | JInt n => PInt n
  | JFloat x => PFloat x
  | JString s => PStr s
  | JArray items => PList (map json_decode items)
  | JObject members =>
      PDict (map (fun kv : string * pyval => (PStr (fst kv), snd kv))
               (dict_of_members
                  (map (fun kv : string * json => (fst kv, json_decode (snd kv))) members)))
  end.

(** The str keys of the entries of a dict. *)
Definition str_keys (entries : list (pyval * pyval)) : list string :=
  omap (fun kv : pyval * pyval => match fst kv with PStr s => Some s | _ => None end)
    entries.

(** The values JSON has a type for: None, bools, ints, floats other than
    NaN, strs, lists of such values and dicts from (distinct) str keys to such
    values. *)
Fixpoint json_native (v : pyval) : bool :=
  match v with
  | PNone | PBool _ | PInt _ | PStr _ => true
  | PFloat S754_nan => false
  | PFloat _ => true
  | PList items => forallb json_native items
  | PTuple _ | PObject _ => false
  | PDict entries =>
      forallb (fun kv : pyval * pyval =>
                 match fst kv with
                 | PStr _ => json_native (snd kv)
                 | _ => false
                 end) entries
      && bool_decide (NoDup (str_keys entries))
  end.

(** ** Lists in the store *)

(** [a + b] on two list objects: a new list object; both operands are left
    as they are. An operand that is not a list object is taken to raise
    [TypeError], as a dict or None does. *)
Definition list_add (a b : loc) : M loc :=
  fun w =>
    match heap w !! a, heap w !! b with
    | Some xs, Some ys =>
        let l := fresh (dom (heap w)) in
        (Returned l, mkWorld (files w) (<[l := xs ++ ys]> (heap w)) (trace w))
    | _, _ => (Raised (Exn TypeError "can only concatenate list to list"), w)
    end.

(** [len(a)] *)
Definition py_len (a : loc) : M Z :=
  fun w =>
    match heap w !! a with
    | Some xs => (Returned (Z.of_nat (length xs)), w)
    | None => (Raised (Exn TypeError "object has no len()"), w)
    end.

(** [open(path, 'w')]: the file is created or truncated. *)
Definition open_w (h : Host) (path : string) : M unit :=
  emit (CallOpenW path);;
  match open_w_fault h path with
  | Some e => raise e
  | None => write_file path FPartial
  end.

(** [json.dump(obj, f, indent=2)] on the file opened at [path]: the document
    is complete when the encoder accepts every value, and is left partial
    when it refuses one. A failure of the write itself (a full disk) is left
    out: the only failures are those of the encoder. *)
Definition json_dump (h : Host) (obj : loc) (path : string) : M unit :=
  emit CallJsonDump;;
  fun w =>
    match heap w !! obj with
    | None => (Raised (Exn TypeError "Object is not JSON serializable"), w)
    | Some items =>
        match json_encode h (PList items) with
        | Returned doc => write_file path (FJson doc) w
        | Raised e => (Raised e, w)
        end
    end.

(** ** merge_json.py *)

(** [data1 + data2 + data3] *)
Definition concat3 (data1 data2 data3 : loc) : M loc :=
  let! data12 := list_add data1 data2 in
  list_add data12 data3.

(** The [with] block: the file is closed on both ways out. *)
Definition write_scene (h : Host) (full_data : loc) : M unit :=
  open_w h "public/scene.json";;
  json_dump h full_data "public/scene.json".

(** The script, from the three imported names on; it yields the list object
    bound to [full_data]. *)
Definition merge_json (h : Host) (data1 data2 data3 : loc) : M loc :=
  let! full_data := concat3 data1 data2 data3 in
  write_scene h full_data;;
  let! n := py_len full_data in
  print [Lit "Successfully merged "; FmtInt n; Lit " objects into public/scene.json"];;
  ret full_data.

Definition merge_json_main (h : Host) (data1 data2 data3 : loc) : M unit :=
  merge_json h data1 data2 data3;; ret tt.

(** ** Vocabulary of the statements *)

(** [border_ratio] is 0 or 0.0 (of either sign). *)
Definition is_zero (r : pynum) : bool :=
  match r with
  | PyInt 0 => true
  | PyFloat (S754_zero _) => true
  | _ => false
  end.

(** Every failure the host injects into Pillow is an instance of
    [Exception]. *)
Definition host_raises_exceptions (h : Host) : Prop :=
  (forall p e, open_fault h p = Some e -> is_Exception e = true)
  /\ (forall i b e, expand_fault h i b = Some e -> is_Exception e = true)
  /\ (forall i p e d, save_fault h i p = Some (e, d) -> is_Exception e = true).

(** [js] holds, in order, the encodings of the values of [vs]. *)
Definition encodes (h : Host) (vs : list pyval) (js : list json) : Prop :=
  Forall2 (fun v j => json_encode h v = Returned j) vs js.

(** ** Sample data *)

(** A host on which nothing fails. *)
Definition quiet_host : Host :=
  mkHost (fun _ => None) (fun _ _ => None) (fun _ _ => None) (fun _ => None)
    (fun _ => "0.0").

(** A black tag of 100 by 80 pixels at the path the script reads. *)
Definition tag : Image := mkImage 100 80 (fun _ _ => (0, 0, 0)).

Definition tag_world : World :=
  mkWorld {["public/tag25h9-origin.png" := FImage tag]} ∅ [].

Definition empty_world : World := mkWorld ∅ ∅ [].

(** The binary64 numbers written 0.25, 0.3 and 0.34. *)
Definition f0_25 : float := S754_finite false 4503599627370496 (-54).
Definition f0_3 : float := S754_finite false 5404319552844595 (-54).
Definition f0_34 : float := S754_finite false 6124895493223875 (-54).

(** The lists of the example of the specification: [{"id":1}],
    [{"id":2},{"id":3}] and []. *)
Definition example_heap : gmap loc (list pyval) :=
  <[3%positive := []]>
    (<[2%positive := [PDict [(PStr "id", PInt 2)]; PDict [(PStr "id", PInt 3)]]]>
       (<[1%positive := [PDict [(PStr "id", PInt 1)]]]> ∅)).

Definition example_world : World := mkWorld ∅ example_heap [].

(** A record with a tuple in it: {"position": (0, 1)}. *)
Definition tuple_heap : gmap loc (list pyval) :=
  <[3%positive := []]>
    (<[2%positive := []]>
       (<[1%positive := [PDict [(PStr "position", PTuple [PInt 0; PInt 1])]]]> ∅)).

Definition tuple_world : World := mkWorld ∅ tuple_heap [].

(** A record that holds a set: {1, 2}. *)
Definition object_heap : gmap loc (list pyval) :=
  <[3%positive := []]> (<[2%positive := []]> (<[1%positive := [PObject "set"]]> ∅)).

Definition object_world : World := mkWorld ∅ object_heap [].

(** The path the script writes and the line it prints. *)
Definition scene_path : string := "public/scene.json".

Definition merged_line (n : nat) : line :=
  [Lit "Successfully merged "; FmtInt (Z.of_nat n); Lit " objects into public/scene.json"].

(** A float that is not a negative finite number. *)
Definition not_negative (x : float) : Prop :=
  match x with
  | S754_finite true _ _ => False
  | _ => True
  end.

(** A computation that leaves every object of the store as it is. *)
Definition heap_grows {A} (c : M A) : Prop :=
  forall w o w', c w = (o, w') -> heap w ⊆ heap w'.

(** A computation that prints nothing. *)
Definition silent {A} (c : M A) : Prop :=
  forall w, stdout (snd (c w)) = stdout w.

(** ** Vocabulary of the further properties *)

(** The three lines [add_border] prints. *)
Definition created_line (output_path : string) (sz : Z * Z) : line :=
  [Lit "Created "; FmtStr output_path; Lit " with size "; FmtSize sz].

Definition ratio_line (ratio : float) : line := [Lit "Width Ratio: "; FmtFloat ratio].

Definition error_line (e : exn) : line := [Lit "Error: "; FmtExn e].

(** The binary64 numbers 1.0 and 1.5. *)
Definition f1_0 : float := S754_finite false 4503599627370496 (-52).
Definition f1_5 : float := S754_finite false 6755399441055744 (-52).

(** [r <= 0] *)
Definition py_le0 (r : pynum) : bool :=
  match r with
  | PyInt k => k <=? 0
  | PyFloat x => SFleb x (S754_zero false)
  end.

(** [ceil(n * r)], on the product the script computes, when it has a value. *)
Definition ceil_mul (n : Z) (r : pynum) : option Z :=
  match int_mul n r with
  | Returned p => if py_finite p then Some (Qceiling (pynum2Q p)) else None
  | Raised _ => None
  end.

(** [border_ratio] is a float that is NaN or an infinity. *)
Definition py_nonfinite (r : pynum) : bool :=
  match r with
  | PyFloat S754_nan | PyFloat (S754_infinity _) => true
  | _ => false
  end.

(** The keys the encoder turns into a member name. *)
Definition json_key_ok (k : pyval) : bool :=
  match k with
  | PStr _ | PFloat _ | PBool _ | PNone | PInt _ => true
  | _ => false
  end.

(** The values the encoder accepts: no object of another type anywhere, and
    dict keys that are str, int, float, bool or None. *)
Fixpoint json_serializable (v : pyval) : bool :=
  match v with
  | PNone | PBool _ | PInt _ | PFloat _ | PStr _ => true
  | PList items | PTuple items => forallb json_serializable items
  | PDict entries =>
      forallb (fun kv : pyval * pyval =>
                 json_key_ok (fst kv) && json_serializable (snd kv)) entries
  | PObject _ => false
  end.

(** ** Further sample data *)

(** A host on which [save] fails and leaves a partial file. *)
Definition full_disk_host : Host :=
  mkHost (fun _ => None) (fun _ _ => None)
    (fun _ _ => Some (Exn OSError "[Errno 28] No space left on device", true))
    (fun _ => None) (fun _ => "0.0").

(** A host on which no file opens for writing. *)
Definition read_only_host : Host :=
  mkHost (fun _ => None) (fun _ _ => None) (fun _ _ => None)
    (fun _ => Some (Exn PermissionError "[Errno 13] Permission denied")) (fun _ => "0.0").

(** The store of [object_heap] beside an earlier, complete scene file. *)
Definition stale_world : World :=
  mkWorld {["public/scene.json" := FJson (JArray [])]} object_heap [].

(** A list with two objects the encoder refuses, a set and a bytes, after a
    list with a record it accepts. *)
Definition mixed_world : World :=
  mkWorld ∅
    (<[3%positive := []]>
       (<[2%positive := [PDict [(PStr "id", PInt 2)]]]>
          (<[1%positive := [PObject "set"; PObject "bytes"]]> ∅))) [].

(** ** The products and quotients of the numbers *)

(** [floor(n * r)] on the numbers: the product of the integer [n] and of the
    rational number [r] stands for, neither rounded nor computed by the
    script. It is defined when [r] has a value. *)
Definition exact_floor_mul (n : Z) (r : pynum) : option Z :=
  if py_finite r then Some (Qfloor (inject_Z n * pynum2Q r)) else None.




(** ** Rounding to nearest *)

(** [l] is the position of [R / D], a fraction in [0, 1), with respect to
    the middle: exact when [R] is 0, else below, at or above 1/2. *)
Definition located (l : location) (R D : Z) : Prop :=
  l = if R =? 0 then loc_Exact else loc_Inexact (2 * R ?= D).

(** A binary64 number with a value: a zero, or a finite float whose
    mantissa and exponent are those of the format. *)
Definition is_binary64 (x : float) : bool :=
  match x with
  | S754_zero _ => true
  | S754_finite _ m e => bounded prec emax m e
  | _ => false
  end.

(** [x] is a binary64 number nearest to the rational [v]: no binary64
    number is closer to [v]. *)
Definition nearest_binary64 (x : float) (v : Q) : Prop :=
  is_binary64 x = true
  /\ forall y, is_binary64 y = true -> (Qabs (SF2Q x - v) <= Qabs (SF2Q y - v))%Q.


(** [ceil(n * r)] on the numbers, and the ceiling of a binary64 number
    nearest to the product. *)
Definition exact_ceil_mul (n : Z) (r : pynum) : option Z :=
  if py_finite r then Some (Qceiling (inject_Z n * pynum2Q r)) else None.

Definition rounded_ceil_mul (n : Z) (r : pynum) (b : Z) : Prop :=
  exists y, nearest_binary64 y (inject_Z n * pynum2Q r) /\ b = Qceiling (SF2Q y).

(** * Properties *)

(** ** Arithmetic of the border *)

(** The floor of a positive mantissa scaled by a power of two is the shifted
    mantissa. *)
Lemma Qfloor_shift (m : positive) (e : Z) :
  Qfloor (inject_Z (Zpos m) * Qpower 2 e)%Q = Z.shiftl (Zpos m) e.
Proof.
  destruct e as [|p|p].
  - rewrite Z.shiftl_0_r. change (Qpower 2 0) with 1%Q.
    rewrite Qmult_1_r. apply Qfloor_Z.
  - rewrite Z.shiftl_mul_pow2 by lia.
    change 2%Q with (inject_Z 2).
    rewrite <- (Zpower_Qpower 2 (Zpos p)) by lia.
    rewrite <- inject_Z_mult. apply Qfloor_Z.
  - change (Zneg p) with (- Zpos p). rewrite Z.shiftl_opp_r, Z.shiftr_div_pow2 by lia.
    change 2%Q with (inject_Z 2).
    rewrite Qpower_opp, <- (Zpower_Qpower 2 (Zpos p)) by lia.
    rewrite Zdiv_Qdiv. reflexivity.
Qed.


Lemma binary_round_aux_sign sx mx ex lx :
  match binary_round_aux prec emax sx mx ex lx with
  | S754_zero s | S754_infinity s | S754_finite s _ _ => s = sx
  | S754_nan => True
  end.
Proof.
  unfold binary_round_aux.
  destruct (shr_fexp prec emax mx ex lx) as [mrs' e'].
  destruct (shr_fexp prec emax _ e' loc_Exact) as [mrs'' e''].
  destruct (shr_m mrs''); [reflexivity| |exact I].
  destruct (e'' <=? emax - prec); reflexivity.
Qed.

Lemma binary_round_sign sx mx ex :
  match binary_round prec emax sx mx ex with
  | S754_zero s | S754_infinity s | S754_finite s _ _ => s = sx
  | S754_nan => True
  end.
Proof.
  unfold binary_round.
  destruct (shl_align mx ex _) as [mz ez]. apply binary_round_aux_sign.
Qed.

Lemma int_to_float_not_negative n fn :
  0 <= n -> int_to_float n = Returned fn ->
  match fn with
  | S754_zero s | S754_infinity s | S754_finite s _ _ => s = false
  | S754_nan => True
  end.
Proof.
  intros Hn. unfold int_to_float, binary_normalize.
  destruct n as [|p|p]; [|pose proof (binary_round_sign false p 0) as Hs|lia].
  - intros [= <-]. reflexivity.
  - destruct (binary_round prec emax false p 0); intros [= <-]; exact Hs.
Qed.

Lemma SFmul_not_negative x y :
  match x with
  | S754_zero s | S754_infinity s | S754_finite s _ _ => s = false
  | S754_nan => True
  end ->
  SFleb (S754_zero false) y = true ->
  not_negative (SFmul prec emax x y).
Proof.
  destruct x as [sx|sx| |sx mx ex], y as [sy|sy| |[] my ey];
    simpl; try exact (fun _ _ => I); try discriminate.
  intros -> _.
  pose proof (binary_round_aux_sign (xorb false false) (Zpos (mx * my)) (ex + ey) loc_Exact) as Hs.
  destruct (binary_round_aux _ _ _ _ _ _) as [s|s| |s m e]; try exact I.
  simpl in Hs. subst s. exact I.
Qed.

Lemma py_int_floor (x : float) z :
  not_negative x -> py_int (PyFloat x) = Returned z ->
  py_finite (PyFloat x) = true /\ z = Qfloor (SF2Q x) /\ 0 <= z.
Proof.
  destruct x as [s|s| |[] m e]; cbn [py_int py_finite SF2Q cond_Zopp not_negative];
    try discriminate; try contradiction.
  - intros _ [= <-]. repeat split; lia.
  - intros _ [= <-]. rewrite Qfloor_shift. repeat split.
    apply Z.shiftl_nonneg. lia.
Qed.

Lemma border_floor n r b :
  0 < n -> py_ge0 r = true ->
  outcome_bind (int_mul n r) py_int = Returned b <-> floor_mul n r = Some b.
Proof.
  intros Hn Hr. unfold floor_mul.
  destruct r as [k|x]; cbn [int_mul outcome_bind py_int py_finite pynum2Q py_ge0] in *.
  - rewrite Qfloor_Z. split; congruence.
  - destruct (int_to_float n) as [fn|e] eqn:Hfn; cbn [outcome_bind];
      [|split; discriminate].
    assert (not_negative (SFmul prec emax fn x)) as Hnn.
    { apply SFmul_not_negative; [|exact Hr].
      apply (int_to_float_not_negative n); [lia|exact Hfn]. }
    split.
    + intros Hi. destruct (py_int_floor _ _ Hnn Hi) as (Hf & -> & _).
      cbn [pynum2Q]. rewrite Hf. reflexivity.
    + destruct (SFmul prec emax fn x) as [s|s| |[] m e];
        cbn [py_int py_finite pynum2Q SF2Q cond_Zopp not_negative] in *;
        try discriminate; try contradiction.
      * intros [= <-]. reflexivity.
      * rewrite Qfloor_shift. intros [= <-]. reflexivity.
Qed.


(** ** Runs of [add_border] *)

Lemma new_events_app w f hp evs :
  new_events w (mkWorld f hp (trace w ++ evs)) = evs.
Proof. unfold new_events. simpl. apply drop_app_length. Qed.

Ltac unfold_run :=
  unfold add_border, try_except, add_border_body, Image_open, ImageOps_expand,
    Image_save, print, write_file, bind, emit, lift, raise, ret;
  cbn [files heap trace fst snd].

(** Bring the events of a finished run into view. *)
Ltac events :=
  cbn [files heap trace fst snd]; rewrite <- ?app_assoc, ?new_events_app; cbn [app].

(** Membership of an event in an explicit list: one goal per position at
    which it can stand. *)
Ltac positions H :=
  repeat (apply elem_of_cons in H as [H|H]; [try discriminate H|]);
  try (apply elem_of_nil in H; contradiction).

(** A branch of [add_border] that ends without the event looked for. *)
Ltac caught e :=
  destruct (is_Exception e); events; intros Hin; positions Hin.

(** An image written by a run is the expanded image, at [out], and it is
    what the file holds when the run ends. *)
Lemma add_border_written h inp out r w img p img' :
  files w !! inp = Some (FImage img) ->
  Wrote p (FImage img') ∈ new_events w (snd (add_border h inp out r w)) ->
  p = out /\ files (snd (add_border h inp out r w)) !! out = Some (FImage img') /\
  exists bw bh,
    outcome_bind (int_mul (width img) r) py_int = Returned bw /\
    outcome_bind (int_mul (height img) r) py_int = Returned bh /\
    width img' = width img + 2 * bw /\ height img' = height img + 2 * bh.
Proof.
  intros Hfile. unfold_run. rewrite Hfile.
  destruct (open_fault h inp) as [e|]; [caught e|].
  destruct (outcome_bind (int_mul (width img) r) py_int) as [bw|e] eqn:Hbw; [|caught e].
  destruct (outcome_bind (int_mul (height img) r) py_int) as [bh|e] eqn:Hbh; [|caught e].
  destruct (_ || _); [caught (Exn ValueError "Width and height must be >= 0")|].
  destruct (expand_fault h img (bw, bh)) as [e|]; [caught e|].
  destruct (save_fault h _ out) as [[e []]|]; [caught e|caught e|].
  destruct (int_truediv _ _) as [q|e]; [|destruct (is_Exception e)]; events;
    intros Hin; positions Hin;
    injection Hin as -> ->; cbn [files width height];
    (split; [reflexivity|]); (split; [apply lookup_insert_eq|]);
    exists bw, bh; repeat split; lia.
Qed.

(** When the borders are computed, the enlarged size is not negative and the
    host lets the three Pillow calls through, an image is written. *)
Lemma add_border_writes h inp out r w img bw bh :
  files w !! inp = Some (FImage img) -> open_fault h inp = None ->
  outcome_bind (int_mul (width img) r) py_int = Returned bw ->
  outcome_bind (int_mul (height img) r) py_int = Returned bh ->
  0 <= width img + 2 * bw -> 0 <= height img + 2 * bh ->
  expand_fault h img (bw, bh) = None -> (forall i, save_fault h i out = None) ->
  exists img', Wrote out (FImage img') ∈ new_events w (snd (add_border h inp out r w)).
Proof.
  intros Hfile Hof Hbw Hbh Hw Hh Hef Hsf. unfold_run. rewrite Hfile, Hof, Hbw, Hbh.
  replace (_ || _) with false
    by (symmetry; apply orb_false_intro; apply Z.ltb_ge; cbn [fst snd]; lia).
  rewrite Hef, Hsf. eexists.
  destruct (int_truediv _ _) as [q|e]; [|destruct (is_Exception e)]; events;
    do 3 apply list_elem_of_further; apply list_elem_of_here.
Qed.

(** A printed width ratio is the quotient of the enlarged width by the
    width. *)
Lemma add_border_ratio_printed h inp out r w img x :
  files w !! inp = Some (FImage img) ->
  Printed [Lit "Width Ratio: "; FmtFloat x]
    ∈ new_events w (snd (add_border h inp out r w)) ->
  exists bw,
    outcome_bind (int_mul (width img) r) py_int = Returned bw /\
    int_truediv (width img + 2 * bw) (width img) = Returned x.
Proof.
  intros Hfile. unfold_run. rewrite Hfile.
  destruct (open_fault h inp) as [e|]; [caught e|].
  destruct (outcome_bind (int_mul (width img) r) py_int) as [bw|e] eqn:Hbw; [|caught e].
  destruct (outcome_bind (int_mul (height img) r) py_int) as [bh|e] eqn:Hbh; [|caught e].
  destruct (_ || _); [caught (Exn ValueError "Width and height must be >= 0")|].
  destruct (expand_fault h img (bw, bh)) as [e|]; [caught e|].
  destruct (save_fault h _ out) as [[e []]|]; [caught e|caught e|].
  destruct (int_truediv _ _) as [q|e] eqn:Hq; [|caught e]. events.
  intros Hin; positions Hin. injection Hin as ->. exists bw. split; [reflexivity|exact Hq].
Qed.

(** When the borders are computed, the enlarged size is not negative and the
    host lets the three Pillow calls through, the save being that of an image
    of the enlarged size, an image is written. *)
Lemma add_border_writes_enlarged h inp out r w img bw bh :
  files w !! inp = Some (FImage img) -> open_fault h inp = None ->
  outcome_bind (int_mul (width img) r) py_int = Returned bw ->
  outcome_bind (int_mul (height img) r) py_int = Returned bh ->
  0 <= width img + 2 * bw -> 0 <= height img + 2 * bh ->
  expand_fault h img (bw, bh) = None ->
  (forall i, width i = width img + 2 * bw -> height i = height img + 2 * bh ->
             save_fault h i out = None) ->
  exists img', Wrote out (FImage img') ∈ new_events w (snd (add_border h inp out r w)).
Proof.
  intros Hfile Hof Hbw Hbh Hw Hh Hef Hsf. unfold_run. rewrite Hfile, Hof, Hbw, Hbh.
  replace (_ || _) with false
    by (symmetry; apply orb_false_intro; apply Z.ltb_ge; cbn [fst snd]; lia).
  rewrite Hef, Hsf by (cbn [width height fst snd]; lia). eexists.
  destruct (int_truediv _ _) as [q|e]; [|destruct (is_Exception e)]; events;
    do 3 apply list_elem_of_further; apply list_elem_of_here.
Qed.


(** ** Properties of [add_border] *)

(** The run of the script's own call on the sample tag: borders of 25 and 20
    pixels, a 150 by 120 image, and the ratio 1.5. *)
Example add_border_main_run :
  let w' := snd (add_border_main quiet_host tag_world) in
  new_events tag_world w' =
    [CallImageOpen "public/tag25h9-origin.png"; CallExpand (25, 20);
     CallSave "public/tag-with-border.png";
     Wrote "public/tag-with-border.png"
       (FImage (mkImage 150 120 (fun x y =>
          if (25 <=? x) && (x <? 125) && (20 <=? y) && (y <? 100)
          then (0, 0, 0) else white)));
     Printed [Lit "Created "; FmtStr "public/tag-with-border.png"; Lit " with size ";
            FmtSize (150, 120)];
     Printed [Lit "Width Ratio: "; FmtFloat (S754_finite false 6755399441055744 (-52))]].
Proof. vm_compute. reflexivity. Qed.

(** The product is the binary64 one: 10 * 0.3 is rounded to 3.0 and the
    border is 3, while the rational product of 10 and the binary64 0.3 is
    below 3. *)
Example product_is_rounded :
  floor_mul 10 (PyFloat f0_3) = Some 3 /\ Qfloor (inject_Z 10 * SF2Q f0_3) = 2.
Proof. split; vm_compute; reflexivity. Qed.

(** Below 0 the border is not the floor: [int] truncates towards zero, and
    10 * -0.25 gives -2 where the floor is -3. *)
Example negative_ratio_truncates :
  let r := PyFloat (S754_finite true 4503599627370496 (-54)) in
  outcome_bind (int_mul 10 r) py_int = Returned (-2) /\ floor_mul 10 r = Some (-3).
Proof. split; vm_compute; reflexivity. Qed.

(** The quotient is the binary64 one: 5 / 3 is the float nearest to the
    rational 5/3, which is no binary64. *)
Example quotient_is_rounded :
  int_truediv 5 3 = Returned (S754_finite false 7505999378950827 (-52))
  /\ ~ (SF2Q (S754_finite false 7505999378950827 (-52)) == 5 # 3)%Q.
Proof. split; [vm_compute; reflexivity|]. vm_compute. discriminate. Qed.

(** The ratio is not 1 + 2 * border_ratio: on a width of 3 with 0.34 the
    border is 1 pixel and the ratio is 5 / 3. *)
Example ratio_of_narrow_image :
  floor_mul 3 (PyFloat f0_34) = Some 1.
Proof. vm_compute. reflexivity. Qed.

Lemma zero_border n r b :
  is_zero r = true -> outcome_bind (int_mul n r) py_int = Returned b -> b = 0.
Proof.
  destruct r as [[| |]|[s|s| |s m e]]; try discriminate; intros _.
  - cbn [int_mul outcome_bind py_int]. intros [= <-]. lia.
  - cbn [int_mul]. destruct (int_to_float n) as [fn|e] eqn:Hfn; [|discriminate].
    cbn [outcome_bind].
    destruct fn as [sn|sn| |sn mn en]; cbn [SFmul py_int]; try discriminate;
      intros [= <-]; reflexivity.
Qed.

(** C7. With border_ratio = 0 an image written by [add_border] has the
    width and the height of the input image; and on a valid input image it
    is written whenever the products have a value and the host lets the
    Pillow calls through. *)
Theorem add_border_zero_ratio h inp out r w img :
  files w !! inp = Some (FImage img) -> is_zero r = true ->
  let w' := snd (add_border h inp out r w) in
  (forall p img', Wrote p (FImage img') ∈ new_events w w' ->
     p = out /\ files w' !! out = Some (FImage img') /\
     width img' = width img /\ height img' = height img)
  /\ (forall bw bh,
        0 < width img -> 0 < height img -> open_fault h inp = None ->
        floor_mul (width img) r = Some bw -> floor_mul (height img) r = Some bh ->
        expand_fault h img (0, 0) = None -> (forall i, save_fault h i out = None) ->
        exists img', Wrote out (FImage img') ∈ new_events w w').
Proof.
  intros Hfile Hz w'. split.
  - intros p img' Hin.
    destruct (add_border_written _ _ _ _ _ _ _ _ Hfile Hin)
      as (Hp & Hout & bw & bh & Hbw & Hbh & Hwd & Hht).
    apply (zero_border _ _ _ Hz) in Hbw, Hbh. subst bw bh.
    repeat split; try assumption; lia.
  - intros bw bh Hw Hh Hof Hbw Hbh Hef Hsf.
    assert (py_ge0 r = true) as Hr
      by (destruct r as [[| |]|[s|s| |s m e]]; try discriminate; reflexivity).
    apply border_floor in Hbw, Hbh; try assumption.
    pose proof (zero_border _ _ _ Hz Hbw). pose proof (zero_border _ _ _ Hz Hbh).
    subst bw bh.
    apply (add_border_writes h inp out r w img 0 0); try assumption; lia.
Qed.

Lemma add_border_zero_ratio_witness :
  let w' := snd (add_border quiet_host "public/tag25h9-origin.png"
                   "public/tag-with-border.png" (PyFloat (S754_zero false)) tag_world) in
  (forall p img', Wrote p (FImage img') ∈ new_events tag_world w' ->
     p = "public/tag-with-border.png" /\
     files w' !! "public/tag-with-border.png" = Some (FImage img') /\
     width img' = width tag /\ height img' = height tag)
  /\ (forall bw bh,
        0 < width tag -> 0 < height tag ->
        open_fault quiet_host "public/tag25h9-origin.png" = None ->
        floor_mul (width tag) (PyFloat (S754_zero false)) = Some bw ->
        floor_mul (height tag) (PyFloat (S754_zero false)) = Some bh ->
        expand_fault quiet_host tag (0, 0) = None ->
        (forall i, save_fault quiet_host i "public/tag-with-border.png" = None) ->
        exists img', Wrote "public/tag-with-border.png" (FImage img')
                       ∈ new_events tag_world w').
Proof.
  apply (add_border_zero_ratio quiet_host "public/tag25h9-origin.png"
           "public/tag-with-border.png" (PyFloat (S754_zero false)) tag_world tag).
  - vm_compute. reflexivity.
  - vm_compute. reflexivity.
Defined.

(** The built-in conversions raise instances of [Exception] only. *)
Lemma border_raises_exception n r e :
  outcome_bind (int_mul n r) py_int = Raised e -> is_Exception e = true.
Proof.
  destruct r as [k|x]; cbn [int_mul outcome_bind py_int]; [discriminate|].
  unfold int_to_float.
  destruct (binary_normalize prec emax n 0 false); cbn [outcome_bind];
    try (intros [= <-]; reflexivity);
    destruct (SFmul prec emax _ x); cbn [py_int]; try discriminate;
    intros [= <-]; reflexivity.
Qed.

Lemma int_truediv_raises_exception a b e :
  int_truediv a b = Raised e -> is_Exception e = true.
Proof.
  unfold int_truediv. destruct (b =? 0); [intros [= <-]; reflexivity|].
  destruct (SFdiv prec emax (Z2SF a) (Z2SF b)); try discriminate.
  intros [= <-]. reflexivity.
Qed.

(** Under [try:], only an instance of [Exception] is raised, as long as the
    failures of Pillow are such instances. *)
Lemma add_border_body_raises h inp out r w e w1 :
  host_raises_exceptions h ->
  add_border_body h inp out r w = (Raised e, w1) -> is_Exception e = true.
Proof.
  intros (Hopen & Hexpand & Hsave).
  unfold add_border_body, Image_open, ImageOps_expand, Image_save, print, write_file,
    bind, emit, lift, raise, ret.
  cbn [files heap trace fst snd].
  destruct (files w !! inp) as [f|]; [|intros [= <- _]; reflexivity].
  destruct (open_fault h inp) as [e0|] eqn:Hof; [intros [= <- _]; eauto|].
  destruct f as [img| | |]; try (intros [= <- _]; reflexivity).
  destruct (outcome_bind (int_mul (width img) r) py_int) as [bw|e0] eqn:Hbw;
    [|intros [= <- _]; eapply border_raises_exception; eassumption].
  destruct (outcome_bind (int_mul (height img) r) py_int) as [bh|e0] eqn:Hbh;
    [|intros [= <- _]; eapply border_raises_exception; eassumption].
  destruct (_ || _); [intros [= <- _]; reflexivity|].
  destruct (expand_fault h img (bw, bh)) as [e0|] eqn:Hef; [intros [= <- _]; eauto|].
  destruct (save_fault h _ out) as [[e0 []]|] eqn:Hsf; try (intros [= <- _]; eauto).
  destruct (int_truediv _ _) as [q|e0] eqn:Hq; [discriminate|].
  intros [= <- _]. eapply int_truediv_raises_exception; eassumption.
Qed.

(** C3. Whatever the input, a failure raised under [try:] (while opening,
    computing or saving) is caught: [add_border] prints one error line that
    carries the exception and returns; so [add_border] always returns, and
    on a path that does not exist it does so after the error line of a
    [FileNotFoundError]. The failures are instances of [Exception], as those
    of Pillow and of the arithmetic are. *)
Theorem add_border_returns_normally h inp out r w :
  host_raises_exceptions h ->
  (forall e w1, add_border_body h inp out r w = (Raised e, w1) ->
     add_border h inp out r w =
       (Returned tt,
        mkWorld (files w1) (heap w1) (trace w1 ++ [Printed [Lit "Error: "; FmtExn e]])))
  /\ (exists w', add_border h inp out r w = (Returned tt, w'))
  /\ (files w !! inp = None ->
      exists e, exn_cls e = FileNotFoundError /\
        add_border h inp out r w =
          (Returned tt,
           mkWorld (files w) (heap w)
             (trace w ++ [CallImageOpen inp; Printed [Lit "Error: "; FmtExn e]]))).
Proof.
  intros Hhost.
  assert (forall e w1, add_border_body h inp out r w = (Raised e, w1) ->
     add_border h inp out r w =
       (Returned tt,
        mkWorld (files w1) (heap w1) (trace w1 ++ [Printed [Lit "Error: "; FmtExn e]])))
    as Hcaught.
  { intros e w1 Hbody. unfold add_border, try_except. rewrite Hbody.
    rewrite (add_border_body_raises _ _ _ _ _ _ _ Hhost Hbody). reflexivity. }
  split; [exact Hcaught|]. split.
  - destruct (add_border_body h inp out r w) as [[[]|e] w1] eqn:Hbody.
    + exists w1. unfold add_border, try_except. rewrite Hbody. reflexivity.
    + eexists. apply Hcaught. reflexivity.
  - intros Hnone.
    exists (Exn FileNotFoundError
              ("[Errno 2] No such file or directory: '" +:+ inp +:+ "'")).
    split; [reflexivity|]. unfold_run. rewrite Hnone.
    cbn [is_Exception exn_cls]. events. reflexivity.
Qed.

Lemma add_border_returns_normally_witness :
  (forall e w1,
     add_border_body quiet_host "missing.png" "out.png" (PyFloat f0_25) empty_world
       = (Raised e, w1) ->
     add_border quiet_host "missing.png" "out.png" (PyFloat f0_25) empty_world =
       (Returned tt,
        mkWorld (files w1) (heap w1) (trace w1 ++ [Printed [Lit "Error: "; FmtExn e]])))
  /\ (exists w', add_border quiet_host "missing.png" "out.png" (PyFloat f0_25) empty_world
                 = (Returned tt, w'))
  /\ (files empty_world !! "missing.png" = None ->
      exists e, exn_cls e = FileNotFoundError /\
        add_border quiet_host "missing.png" "out.png" (PyFloat f0_25) empty_world =
          (Returned tt,
           mkWorld (files empty_world) (heap empty_world)
             (trace empty_world
                ++ [CallImageOpen "missing.png"; Printed [Lit "Error: "; FmtExn e]]))).
Proof.
  apply (add_border_returns_normally quiet_host "missing.png" "out.png" (PyFloat f0_25)
           empty_world).
  unfold host_raises_exceptions, quiet_host; simpl.
  repeat split; intros; discriminate.
Defined.

(** An exception that is no instance of [Exception] is not caught: a
    [KeyboardInterrupt] during [Image.open] leaves [add_border]. *)
Example add_border_interrupted :
  let h := mkHost (fun _ => Some (Exn KeyboardInterrupt "")) (fun _ _ => None)
             (fun _ _ => None) (fun _ => None) (fun _ => "0.0") in
  fst (add_border h "public/tag25h9-origin.png" "out.png" (PyFloat f0_25) tag_world)
  = Raised (Exn KeyboardInterrupt "").
Proof. vm_compute. reflexivity. Qed.

(** C10. When [Image.open] fails (for one, on a path that does not exist),
    [add_border] leaves the file system as it was and adds to the trace the
    call of [Image.open] and one printed error line, nothing else: no call
    of [save], no file written, no line with the size or the ratio. *)
Theorem add_border_open_failure h inp out r w e w1 :
  Image_open h inp w = (Raised e, w1) -> is_Exception e = true ->
  exists w',
    add_border h inp out r w = (Returned tt, w')
    /\ files w' = files w
    /\ new_events w w' = [CallImageOpen inp; Printed [Lit "Error: "; FmtExn e]]
    /\ stdout w' = stdout w ++ [[Lit "Error: "; FmtExn e]].
Proof.
  intros Hopen Hexn.
  assert (w1 = mkWorld (files w) (heap w) (trace w ++ [CallImageOpen inp])) as ->.
  { revert Hopen. unfold Image_open, bind, emit. cbn [files heap trace].
    destruct (files w !! inp) as [f|]; [|congruence].
    destruct (open_fault h inp); [congruence|]. destruct f; congruence. }
  exists (mkWorld (files w) (heap w)
            (trace w ++ [CallImageOpen inp; Printed [Lit "Error: "; FmtExn e]])).
  split.
  - unfold add_border, try_except, add_border_body, bind at 1. rewrite Hopen, Hexn.
    unfold print, emit. events. reflexivity.
  - split; [reflexivity|]. split; [apply new_events_app|].
    unfold stdout. cbn [trace]. rewrite omap_app. reflexivity.
Qed.

Lemma add_border_open_failure_witness :
  exists w',
    add_border quiet_host "missing.png" "out.png" (PyFloat f0_25) empty_world
      = (Returned tt, w')
    /\ files w' = files empty_world
    /\ new_events empty_world w' =
         [CallImageOpen "missing.png";
          Printed [Lit "Error: ";
                 FmtExn (Exn FileNotFoundError
                           "[Errno 2] No such file or directory: 'missing.png'")]]
    /\ stdout w' = stdout empty_world
         ++ [[Lit "Error: ";
              FmtExn (Exn FileNotFoundError
                        "[Errno 2] No such file or directory: 'missing.png'")]].
Proof.
  apply (add_border_open_failure quiet_host "missing.png" "out.png" (PyFloat f0_25)
           empty_world
           (Exn FileNotFoundError "[Errno 2] No such file or directory: 'missing.png'")
           (mkWorld ∅ ∅ [CallImageOpen "missing.png"])).
  - vm_compute. reflexivity.
  - vm_compute. reflexivity.
Defined.

(** ** Lists in the store *)


Lemma heap_grows_bind {A B} (c : M A) (k : A -> M B) :
  heap_grows c -> (forall a, heap_grows (k a)) -> heap_grows (bind c k).
Proof.
  intros Hc Hk w o w'. unfold bind.
  destruct (c w) as [[a|e] w1] eqn:Hcw.
  - intros Hka. transitivity (heap w1); [eapply Hc|eapply Hk]; eassumption.
  - intros [= <- <-]. eapply Hc; eassumption.
Qed.

Lemma heap_grows_same {A} (c : M A) :
  (forall w, heap (snd (c w)) = heap w) -> heap_grows c.
Proof. intros Hc w o w' Hrun. rewrite <- (Hc w), Hrun. reflexivity. Qed.

Lemma fresh_loc_unused (hp : gmap loc (list pyval)) : hp !! fresh (dom hp) = None.
Proof. apply not_elem_of_dom, is_fresh. Qed.

Lemma heap_grows_list_add a b : heap_grows (list_add a b).
Proof.
  intros w o w'. unfold list_add.
  destruct (heap w !! a), (heap w !! b); intros [= <- <-]; cbn [heap];
    try reflexivity.
  apply insert_subseteq, fresh_loc_unused.
Qed.

Lemma heap_grows_concat3 d1 d2 d3 : heap_grows (concat3 d1 d2 d3).
Proof.
  apply heap_grows_bind; [|intros a]; apply heap_grows_list_add.
Qed.

Lemma heap_grows_write_scene h fd : heap_grows (write_scene h fd).
Proof.
  apply heap_grows_same. intros w.
  unfold write_scene, open_w, json_dump, write_file, bind, emit, raise.
  cbn [files heap trace].
  destruct (open_w_fault h _); [reflexivity|]. cbn [heap].
  destruct (heap w !! fd); [|reflexivity].
  destruct (json_encode h _); reflexivity.
Qed.

Lemma heap_grows_merge_json h d1 d2 d3 : heap_grows (merge_json h d1 d2 d3).
Proof.
  unfold merge_json.
  apply heap_grows_bind; [apply heap_grows_concat3|intros fd].
  apply heap_grows_bind; [apply heap_grows_write_scene|intros _].
  apply heap_grows_same. intros w. unfold bind, py_len, print, emit, ret.
  destruct (heap w !! fd); reflexivity.
Qed.

(** [data1 + data2 + data3] on three list objects: a new list object that
    holds the entries of the three, in order; nothing else changes. *)
Lemma concat3_run d1 d2 d3 w l1 l2 l3 :
  heap w !! d1 = Some l1 -> heap w !! d2 = Some l2 -> heap w !! d3 = Some l3 ->
  exists fd hp',
    concat3 d1 d2 d3 w = (Returned fd, mkWorld (files w) hp' (trace w))
    /\ hp' !! fd = Some (l1 ++ l2 ++ l3)
    /\ heap w !! fd = None.
Proof.
  intros H1 H2 H3. unfold concat3, bind, list_add. rewrite H1, H2. cbn [heap files trace].
  set (d12 := fresh (dom (heap w))).
  assert (heap w !! d12 = None) as Hd12 by apply fresh_loc_unused.
  rewrite lookup_insert_eq.
  rewrite lookup_insert_ne by (intros ->; congruence). rewrite H3.
  set (hp1 := <[d12 := l1 ++ l2]> (heap w)).
  exists (fresh (dom hp1)), (<[fresh (dom hp1) := (l1 ++ l2) ++ l3]> hp1).
  split; [reflexivity|]. split.
  - rewrite lookup_insert_eq, app_assoc. reflexivity.
  - pose proof (fresh_loc_unused hp1) as Hf. unfold hp1 in Hf at 1.
    apply lookup_insert_None in Hf. tauto.
Qed.



(** The three ways a run of the script on three list objects can go. *)
Lemma merge_json_run h d1 d2 d3 w l1 l2 l3 :
  heap w !! d1 = Some l1 -> heap w !! d2 = Some l2 -> heap w !! d3 = Some l3 ->
  exists fd hp',
    concat3 d1 d2 d3 w = (Returned fd, mkWorld (files w) hp' (trace w))
    /\ hp' !! fd = Some (l1 ++ l2 ++ l3)
    /\ merge_json h d1 d2 d3 w =
       match open_w_fault h scene_path with
       | Some e =>
           (Raised e, mkWorld (files w) hp' (trace w ++ [CallOpenW scene_path]))
       | None =>
           match mapM_outcome (json_encode h) (l1 ++ l2 ++ l3) with
           | Raised e =>
               (Raised e,
                mkWorld (<[scene_path := FPartial]> (files w)) hp'
                  (trace w ++ [CallOpenW scene_path; Wrote scene_path FPartial;
                               CallJsonDump]))
           | Returned js =>
               (Returned fd,
                mkWorld (<[scene_path := FJson (JArray js)]>
                           (<[scene_path := FPartial]> (files w))) hp'
                  (trace w ++ [CallOpenW scene_path; Wrote scene_path FPartial;
                               CallJsonDump; Wrote scene_path (FJson (JArray js));
                               Printed (merged_line (length (l1 ++ l2 ++ l3)))]))
           end
       end.
Proof.
  intros H1 H2 H3.
  destruct (concat3_run d1 d2 d3 w l1 l2 l3 H1 H2 H3) as (fd & hp' & Hc & Hfd & _).
  exists fd, hp'. split; [exact Hc|]. split; [exact Hfd|].
  unfold merge_json, bind at 1. rewrite Hc.
  unfold write_scene, open_w, json_dump, py_len, print, write_file, bind, emit, raise, ret.
  cbn [files heap trace]. fold scene_path.
  destruct (open_w_fault h scene_path); [reflexivity|].
  cbn [files heap trace]. rewrite Hfd. cbn [json_encode].
  destruct (mapM_outcome (json_encode h) (l1 ++ l2 ++ l3)) as [js|e].
  - cbn [files heap trace]. rewrite Hfd. events. reflexivity.
  - events. reflexivity.
Qed.

Lemma mapM_outcome_Forall2 {A B} (f : A -> outcome B) l ys :
  mapM_outcome f l = Returned ys <-> Forall2 (fun x y => f x = Returned y) l ys.
Proof.
  revert ys. induction l as [|x l IH]; intros ys; cbn [mapM_outcome].
  - split; [intros [= <-]; constructor|intros Hnil; inversion Hnil; reflexivity].
  - destruct (f x) as [y|e] eqn:Hfx.
    + destruct (mapM_outcome f l) as [ys'|e] eqn:Hl.
      * split.
        -- intros [= <-]. constructor; [exact Hfx|]. apply IH. reflexivity.
        -- intros Hcons. inversion Hcons as [|? y0 ? ys0 Hy Hys]; subst.
           apply IH in Hys. congruence.
      * split; [discriminate|].
        intros Hcons. inversion Hcons as [|? y0 ? ys0 Hy Hys]; subst.
        apply IH in Hys. discriminate.
    + split; [discriminate|].
      intros Hcons. inversion Hcons; subst. congruence.
Qed.

(** ** Encoding and decoding *)

Section PyvalInduction.
Variable P : pyval -> Prop.
Hypothesis HNone : P PNone.
Hypothesis HBool : forall b, P (PBool b).
Hypothesis HInt : forall n, P (PInt n).
Hypothesis HFloat : forall x, P (PFloat x).
Hypothesis HStr : forall s, P (PStr s).
Hypothesis HList : forall items, Forall P items -> P (PList items).
Hypothesis HTuple : forall items, Forall P items -> P (PTuple items).
Hypothesis HDict :
  forall entries, Forall (fun kv => P (fst kv) /\ P (snd kv)) entries -> P (PDict entries).
Hypothesis HObject : forall n, P (PObject n).

(** Induction on a value, with the hypothesis for every value inside it. *)
Lemma pyval_nested_ind (v : pyval) : P v.
Proof.
  revert v. fix IH 1. intros [ |b|n|x|s|items|items|entries|n].
  - apply HNone.
  - apply HBool.
  - apply HInt.
  - apply HFloat.
  - apply HStr.
  - apply HList. induction items as [|v items IHitems]; constructor;
      [apply IH|exact IHitems].
  - apply HTuple. induction items as [|v items IHitems]; constructor;
      [apply IH|exact IHitems].
  - apply HDict. induction entries as [|[k v] entries IHentries]; constructor;
      [split; apply IH|exact IHentries].
  - apply HObject.
Qed.
End PyvalInduction.

Lemma dict_set_new k v d :
  k ∉ map fst d -> dict_set k v d = d ++ [(k, v)].
Proof.
  induction d as [|[k' v'] d IH]; cbn [dict_set map fst app]; [reflexivity|].
  intros Hk. apply not_elem_of_cons in Hk as [Hne Hk].
  destruct (String.eqb_spec k k') as [->|_]; [contradiction|].
  rewrite IH by exact Hk. reflexivity.
Qed.

Lemma dict_of_members_from acc ms :
  NoDup (map fst (acc ++ ms)) ->
  fold_left (fun d kv => dict_set (fst kv) (snd kv) d) ms acc = acc ++ ms.
Proof.
  revert acc. induction ms as [|[k v] ms IH]; intros acc Hnd; cbn [fold_left fst snd].
  - rewrite app_nil_r. reflexivity.
  - assert (k ∉ map fst acc) as Hk.
    { rewrite map_app in Hnd. apply NoDup_app in Hnd as (_ & Hdisj & _).
      intros Hin. apply (Hdisj k Hin). cbn [map fst]. apply list_elem_of_here. }
    rewrite dict_set_new by exact Hk.
    rewrite IH; rewrite <- app_assoc; [reflexivity|exact Hnd].
Qed.

(** A dict built from members with distinct names holds them as they come. *)
Lemma dict_of_members_distinct ms :
  NoDup (map fst ms) -> dict_of_members ms = ms.
Proof. intros Hnd. apply (dict_of_members_from [] ms). exact Hnd. Qed.

(** Encoding then decoding a value JSON has a type for gives the value back. *)
Lemma json_round_trip h v :
  json_native v = true ->
  exists j, json_encode h v = Returned j /\ json_decode j = v.
Proof.
  induction v as [ |b|n|x|s|items IH|items IH|entries IH|n] using pyval_nested_ind;
    cbn [json_native json_encode]; try discriminate.
  - eexists; split; reflexivity.
  - eexists; split; reflexivity.
  - eexists; split; reflexivity.
  - destruct x; try discriminate; eexists; split; reflexivity.
  - eexists; split; reflexivity.
  - intros Hnat.
    assert (exists js, mapM_outcome (json_encode h) items = Returned js
                       /\ map json_decode js = items) as (js & -> & Hjs).
    { induction IH as [|v items Hv _ IHitems]; cbn [mapM_outcome forallb] in *.
      - exists []. split; reflexivity.
      - apply andb_prop in Hnat as [Hnv Hnitems].
        destruct (Hv Hnv) as (j & -> & Hj).
        destruct (IHitems Hnitems) as (js & -> & Hjs).
        exists (j :: js). cbn [map]. rewrite Hj, Hjs. split; reflexivity. }
    eexists; split; [reflexivity|]. cbn [json_decode]. rewrite Hjs. reflexivity.
  - intros Hnat. apply andb_prop in Hnat as [Hnat Hnd].
    apply bool_decide_eq_true in Hnd.
    assert (exists ms,
              mapM_outcome
                (fun kv : pyval * pyval =>
                   match json_key h (fst kv) with
                   | Raised e => Raised e
                   | Returned name =>
                       match json_encode h (snd kv) with
                       | Raised e => Raised e
                       | Returned j => Returned (name, j)
                       end
                   end) entries = Returned ms
              /\ map (fun kv : string * pyval => (PStr (fst kv), snd kv))
                   (map (fun kv : string * json => (fst kv, json_decode (snd kv))) ms)
                 = entries
              /\ map fst (map (fun kv : string * json => (fst kv, json_decode (snd kv))) ms)
                 = str_keys entries) as (ms & -> & Hms & Hkeys).
    { clear Hnd. induction IH as [|[k v] entries [_ Hv] _ IHentries];
        cbn [mapM_outcome forallb str_keys omap fst snd] in *.
      - exists []. repeat split.
      - apply andb_prop in Hnat as [Hkv Hnentries].
        destruct k as [ | | | |s| | | | ]; try discriminate.
        destruct (Hv Hkv) as (j & -> & Hj).
        destruct (IHentries Hnentries) as (ms & -> & Hms & Hkeys).
        exists ((s, j) :: ms). cbn [json_key map fst snd].
        rewrite Hj, Hms. unfold str_keys in Hkeys. rewrite Hkeys.
        repeat split. }
    eexists; split; [reflexivity|]. cbn [json_decode].
    rewrite dict_of_members_distinct by (rewrite Hkeys; exact Hnd).
    rewrite Hms. reflexivity.
Qed.

(** The same for the entries of a list. *)
Lemma json_round_trip_list h items :
  forallb json_native items = true ->
  exists js, mapM_outcome (json_encode h) items = Returned js
             /\ json_decode (JArray js) = PList items.
Proof.
  intros Hnat. destruct (json_round_trip h (PList items) Hnat) as (j & Henc & Hdec).
  cbn [json_encode] in Henc.
  destruct (mapM_outcome (json_encode h) items) as [js|e]; [|discriminate].
  injection Henc as <-. exists js. split; [reflexivity|exact Hdec].
Qed.

(** ** Properties of [merge_json] *)

Lemma stdout_app w f hp evs :
  stdout (mkWorld f hp (trace w ++ evs)) =
  stdout w ++ omap (fun ev => match ev with Printed l => Some l | _ => None end) evs.
Proof. unfold stdout. cbn [trace]. apply omap_app. Qed.

(** C2. For three lists of lengths a, b and c, the list the script builds
    and the JSON array it writes hold a+b+c elements: the entries of the
    first list in order, then those of the second, then those of the third
    (in the array, as their encodings); and the array is written whenever
    the file opens and every entry is encoded. *)
Theorem merge_json_concatenates h d1 d2 d3 w l1 l2 l3 :
  heap w !! d1 = Some l1 -> heap w !! d2 = Some l2 -> heap w !! d3 = Some l3 ->
  let res := merge_json h d1 d2 d3 w in
  (forall fd, fst res = Returned fd ->
     heap (snd res) !! fd = Some (l1 ++ l2 ++ l3)
     /\ exists js, files (snd res) !! scene_path = Some (FJson (JArray js))
                   /\ Wrote scene_path (FJson (JArray js)) ∈ new_events w (snd res))
  /\ (forall doc, Wrote scene_path (FJson doc) ∈ new_events w (snd res) ->
        exists js, doc = JArray js /\ encodes h (l1 ++ l2 ++ l3) js
                   /\ length js = (length l1 + length l2 + length l3)%nat)
  /\ (forall js, open_w_fault h scene_path = None -> encodes h (l1 ++ l2 ++ l3) js ->
        exists fd, fst res = Returned fd).
Proof.
  intros H1 H2 H3 res. subst res.
  destruct (merge_json_run h d1 d2 d3 w l1 l2 l3 H1 H2 H3) as (fd & hp' & _ & Hfd & ->).
  destruct (open_w_fault h scene_path) as [e|].
  { split; [intros fd' [=]|]. split; [|intros js [=]].
    intros doc. events. intros Hin. positions Hin. }
  destruct (mapM_outcome (json_encode h) (l1 ++ l2 ++ l3)) as [js|e] eqn:Hjs.
  - apply mapM_outcome_Forall2 in Hjs. split; [|split].
    + intros ? [= <-]. cbn [snd heap files]. split; [exact Hfd|].
      exists js. split; [apply lookup_insert_eq|]. events.
      do 3 apply list_elem_of_further. apply list_elem_of_here.
    + intros doc. events. intros Hin. positions Hin. injection Hin as ->.
      exists js. split; [reflexivity|]. split; [exact Hjs|].
      rewrite <- (Forall2_length _ _ _ Hjs), !length_app. lia.
    + intros _ _ _. exists fd. reflexivity.
  - split; [intros fd' [=]|]. split.
    + intros doc. events. intros Hin. positions Hin.
    + intros js _ Hjs'. apply mapM_outcome_Forall2 in Hjs'. congruence.
Qed.

Lemma merge_json_concatenates_witness :
  let res := merge_json quiet_host 1%positive 2%positive 3%positive example_world in
  let l1 := [PDict [(PStr "id", PInt 1)]] in
  let l2 := [PDict [(PStr "id", PInt 2)]; PDict [(PStr "id", PInt 3)]] in
  let l3 := @nil pyval in
  (forall fd, fst res = Returned fd ->
     heap (snd res) !! fd = Some (l1 ++ l2 ++ l3)
     /\ exists js, files (snd res) !! scene_path = Some (FJson (JArray js))
                   /\ Wrote scene_path (FJson (JArray js))
                        ∈ new_events example_world (snd res))
  /\ (forall doc, Wrote scene_path (FJson doc) ∈ new_events example_world (snd res) ->
        exists js, doc = JArray js /\ encodes quiet_host (l1 ++ l2 ++ l3) js
                   /\ length js = (length l1 + length l2 + length l3)%nat)
  /\ (forall js, open_w_fault quiet_host scene_path = None ->
        encodes quiet_host (l1 ++ l2 ++ l3) js ->
        exists fd, fst res = Returned fd).
Proof.
  apply (merge_json_concatenates quiet_host 1%positive 2%positive 3%positive
           example_world).
  - vm_compute. reflexivity.
  - vm_compute. reflexivity.
  - vm_compute. reflexivity.
Defined.

(** C8. For three lists of lengths a, b and c, a line the script prints is
    the count line with a+b+c, and a run that ends prints it once; it ends
    whenever the file opens and every entry is encoded. On the lists
    [{"id":1}], [{"id":2},{"id":3}] and [] the count is 3. *)
Theorem merge_json_prints_count h d1 d2 d3 w l1 l2 l3 :
  heap w !! d1 = Some l1 -> heap w !! d2 = Some l2 -> heap w !! d3 = Some l3 ->
  let res := merge_json h d1 d2 d3 w in
  let n := (length l1 + length l2 + length l3)%nat in
  (forall l, Printed l ∈ new_events w (snd res) -> l = merged_line n)
  /\ (forall fd, fst res = Returned fd -> stdout (snd res) = stdout w ++ [merged_line n])
  /\ (forall js, open_w_fault h scene_path = None -> encodes h (l1 ++ l2 ++ l3) js ->
        exists fd, fst res = Returned fd)
  /\ stdout (snd (merge_json quiet_host 1%positive 2%positive 3%positive example_world))
     = [merged_line 3].
Proof.
  intros H1 H2 H3 res n. subst res n.
  destruct (merge_json_run h d1 d2 d3 w l1 l2 l3 H1 H2 H3) as (fd & hp' & _ & Hfd & ->).
  split; [|split; [|split; [|vm_compute; reflexivity]]].
  - intros l.
    destruct (open_w_fault h scene_path) as [e|];
      [|destruct (mapM_outcome (json_encode h) (l1 ++ l2 ++ l3)) as [js|e]];
      events; intros Hin; positions Hin.
    injection Hin as ->. rewrite !length_app, Nat.add_assoc. reflexivity.
  - intros fd'.
    destruct (open_w_fault h scene_path) as [e|];
      [|destruct (mapM_outcome (json_encode h) (l1 ++ l2 ++ l3)) as [js|e]];
      try discriminate.
    intros _. cbn [snd]. rewrite stdout_app. cbn [omap].
    rewrite !length_app, Nat.add_assoc. reflexivity.
  - intros js Hof Hjs. rewrite Hof.
    apply mapM_outcome_Forall2 in Hjs. rewrite Hjs. exists fd. reflexivity.
Qed.

Lemma merge_json_prints_count_witness :
  let res := merge_json quiet_host 1%positive 2%positive 3%positive example_world in
  (forall l, Printed l ∈ new_events example_world (snd res) -> l = merged_line 3)
  /\ (forall fd, fst res = Returned fd ->
        stdout (snd res) = stdout example_world ++ [merged_line 3])
  /\ (forall js, open_w_fault quiet_host scene_path = None ->
        encodes quiet_host
          ([PDict [(PStr "id", PInt 1)]]
             ++ [PDict [(PStr "id", PInt 2)]; PDict [(PStr "id", PInt 3)]] ++ []) js ->
        exists fd, fst res = Returned fd)
  /\ stdout (snd (merge_json quiet_host 1%positive 2%positive 3%positive example_world))
     = [merged_line 3].
Proof.
  apply (merge_json_prints_count quiet_host 1%positive 2%positive 3%positive
           example_world [PDict [(PStr "id", PInt 1)]]
           [PDict [(PStr "id", PInt 2)]; PDict [(PStr "id", PInt 3)]] []).
  - vm_compute. reflexivity.
  - vm_compute. reflexivity.
  - vm_compute. reflexivity.
Defined.

(** C9. The script leaves every list of the store as it is, whatever the
    outcome: the three input lists hold the entries they held. The merged
    list is a new object that holds the entries of the three inputs as they
    are, in order, duplicates included, whatever these entries are; building
    it prints nothing and writes no file. *)
Theorem merge_json_frame h d1 d2 d3 w l1 l2 l3 :
  heap w !! d1 = Some l1 -> heap w !! d2 = Some l2 -> heap w !! d3 = Some l3 ->
  (forall o w', merge_json h d1 d2 d3 w = (o, w') ->
     forall l xs, heap w !! l = Some xs -> heap w' !! l = Some xs)
  /\ (exists fd w1,
        concat3 d1 d2 d3 w = (Returned fd, w1)
        /\ heap w1 !! fd = Some (l1 ++ l2 ++ l3)
        /\ heap w !! fd = None
        /\ files w1 = files w /\ trace w1 = trace w).
Proof.
  intros H1 H2 H3. split.
  - intros o w' Hrun l xs Hl.
    eapply lookup_weaken; [exact Hl|].
    eapply heap_grows_merge_json. exact Hrun.
  - destruct (concat3_run d1 d2 d3 w l1 l2 l3 H1 H2 H3) as (fd & hp' & Hc & Hfd & Hnew).
    exists fd, (mkWorld (files w) hp' (trace w)). repeat split; assumption.
Qed.

Lemma merge_json_frame_witness :
  (forall o w', merge_json quiet_host 1%positive 2%positive 3%positive example_world
                  = (o, w') ->
     forall l xs, heap example_world !! l = Some xs -> heap w' !! l = Some xs)
  /\ (exists fd w1,
        concat3 1%positive 2%positive 3%positive example_world = (Returned fd, w1)
        /\ heap w1 !! fd
           = Some ([PDict [(PStr "id", PInt 1)]]
                     ++ [PDict [(PStr "id", PInt 2)]; PDict [(PStr "id", PInt 3)]] ++ [])
        /\ heap example_world !! fd = None
        /\ files w1 = files example_world /\ trace w1 = trace example_world).
Proof.
  apply (merge_json_frame quiet_host 1%positive 2%positive 3%positive example_world).
  - vm_compute. reflexivity.
  - vm_compute. reflexivity.
  - vm_compute. reflexivity.
Defined.

(** A list merged with itself: every entry is there twice. *)
Example merge_keeps_duplicates :
  exists fd w1,
    concat3 1%positive 1%positive 1%positive example_world = (Returned fd, w1)
    /\ heap w1 !! fd = Some [PDict [(PStr "id", PInt 1)]; PDict [(PStr "id", PInt 1)];
                             PDict [(PStr "id", PInt 1)]].
Proof. eexists _, _. split; vm_compute; reflexivity. Qed.

Lemma silent_concat3 d1 d2 d3 : silent (concat3 d1 d2 d3).
Proof.
  intros w. unfold concat3, bind, list_add.
  destruct (heap w !! d1), (heap w !! d2); cbn [heap]; try reflexivity.
  destruct (_ !! _); [|reflexivity]. destruct (_ !! d3); reflexivity.
Qed.

Lemma silent_open_w h p : silent (open_w h p).
Proof.
  intros w. unfold open_w, write_file, bind, emit, raise. cbn [files heap trace].
  destruct (open_w_fault h p); cbn [files heap trace fst snd];
    rewrite <- ?app_assoc, stdout_app; cbn [omap app]; apply app_nil_r.
Qed.

Lemma silent_json_dump h fd p : silent (json_dump h fd p).
Proof.
  intros w. unfold json_dump, write_file, bind, emit. cbn [files heap trace].
  destruct (heap w !! fd); [destruct (json_encode h _)|]; cbn [files heap trace fst snd];
    rewrite <- ?app_assoc, stdout_app; cbn [omap app]; apply app_nil_r.
Qed.

(** C6. A failure (an instance of [Exception]) of the concatenation, of the
    opening of the file or of the serialization and its write is not handled:
    the exception leaves the script, the interpreter ends with a status
    other than 0 (it is 1) after the traceback of that exception, and the
    script has printed nothing. *)
Theorem merge_json_failure_is_fatal h d1 d2 d3 w e :
  is_Exception e = true ->
  (exists w1, concat3 d1 d2 d3 w = (Raised e, w1))
  \/ (exists fd w1 w2,
        concat3 d1 d2 d3 w = (Returned fd, w1)
        /\ open_w h scene_path w1 = (Raised e, w2))
  \/ (exists fd w1 w2 w3,
        concat3 d1 d2 d3 w = (Returned fd, w1)
        /\ open_w h scene_path w1 = (Returned tt, w2)
        /\ json_dump h fd scene_path w2 = (Raised e, w3)) ->
  exists status w',
    python (merge_json_main h d1 d2 d3) w = (status, w')
    /\ status = 1 /\ status <> 0
    /\ last (trace w') = Some (Traceback e)
    /\ stdout w' = stdout w.
Proof.
  intros _ Hfail.
  assert (exists w1, merge_json h d1 d2 d3 w = (Raised e, w1) /\ stdout w1 = stdout w)
    as (w1 & Hrun & Hout).
  { destruct Hfail as [(w1 & Hc)|[(fd & w1 & w2 & Hc & Ho)|(fd & w1 & w2 & w3 & Hc & Ho & Hd)]].
    - exists w1. split.
      + unfold merge_json, bind. rewrite Hc. reflexivity.
      + rewrite <- (silent_concat3 d1 d2 d3 w), Hc. reflexivity.
    - exists w2. split.
      + unfold merge_json, write_scene, bind. rewrite Hc. fold scene_path.
        rewrite Ho. reflexivity.
      + rewrite <- (silent_concat3 d1 d2 d3 w), Hc. cbn [snd].
        rewrite <- (silent_open_w h scene_path w1), Ho. reflexivity.
    - exists w3. split.
      + unfold merge_json, write_scene, bind. rewrite Hc. fold scene_path.
        rewrite Ho, Hd. reflexivity.
      + rewrite <- (silent_concat3 d1 d2 d3 w), Hc. cbn [snd].
        rewrite <- (silent_open_w h scene_path w1), Ho. cbn [snd].
        rewrite <- (silent_json_dump h fd scene_path w2), Hd. reflexivity. }
  exists 1, (mkWorld (files w1) (heap w1) (trace w1 ++ [Traceback e])).
  split; [|split; [reflexivity|split; [lia|split]]].
  - unfold python, merge_json_main, bind. rewrite Hrun. reflexivity.
  - cbn [trace]. apply last_snoc.
  - unfold stdout in *. cbn [trace]. rewrite omap_app, Hout. cbn [omap]. apply app_nil_r.
Qed.

Lemma merge_json_failure_is_fatal_witness :
  exists status w',
    python (merge_json_main quiet_host 1%positive 2%positive 3%positive) object_world
      = (status, w')
    /\ status = 1 /\ status <> 0
    /\ last (trace w')
       = Some (Traceback (Exn TypeError "Object of type set is not JSON serializable"))
    /\ stdout w' = stdout object_world.
Proof.
  apply (merge_json_failure_is_fatal quiet_host 1%positive 2%positive 3%positive
           object_world (Exn TypeError "Object of type set is not JSON serializable")).
  { vm_compute. reflexivity. }
  right. right. eexists _, _, _, _.
  split; [vm_compute; reflexivity|]. split; vm_compute; reflexivity.
Defined.

(** The claim that reading the written document back gives the
    concatenation, for any three lists, fails on a record that holds a
    tuple: the list [{"position": (0, 1)}] is written and read back as
    [{"position": [0, 1]}]. *)
Lemma json_round_trip_counterexample :
  let res := merge_json quiet_host 1%positive 2%positive 3%positive tuple_world in
  heap tuple_world !! 1%positive = Some [PDict [(PStr "position", PTuple [PInt 0; PInt 1])]]
  /\ heap tuple_world !! 2%positive = Some []
  /\ heap tuple_world !! 3%positive = Some []
  /\ exists fd doc,
       fst res = Returned fd
       /\ files (snd res) !! scene_path = Some (FJson doc)
       /\ json_decode doc = PList [PDict [(PStr "position", PList [PInt 0; PInt 1])]]
       /\ json_decode doc
          <> PList ([PDict [(PStr "position", PTuple [PInt 0; PInt 1])]] ++ [] ++ []).
Proof.
  cbv zeta. split; [vm_compute; reflexivity|]. split; [vm_compute; reflexivity|].
  split; [vm_compute; reflexivity|].
  eexists _, _. split; [vm_compute; reflexivity|]. split; [vm_compute; reflexivity|].
  split; [vm_compute; reflexivity|]. vm_compute. discriminate.
Qed.

(** C5, amended. For three lists whose entries are values JSON has a type
    for (None, bools, ints, floats other than NaN, strs, lists of such values
    and dicts from distinct str keys to such values), a document the script
    writes decodes to the concatenation of the three lists; and it is written
    whenever the file opens. *)
Theorem merge_json_round_trip h d1 d2 d3 w l1 l2 l3 :
  heap w !! d1 = Some l1 -> heap w !! d2 = Some l2 -> heap w !! d3 = Some l3 ->
  forallb json_native (l1 ++ l2 ++ l3) = true ->
  let res := merge_json h d1 d2 d3 w in
  (forall doc, Wrote scene_path (FJson doc) ∈ new_events w (snd res) ->
     json_decode doc = PList (l1 ++ l2 ++ l3))
  /\ (open_w_fault h scene_path = None ->
      exists fd doc,
        fst res = Returned fd
        /\ files (snd res) !! scene_path = Some (FJson doc)
        /\ json_decode doc = PList (l1 ++ l2 ++ l3)).
Proof.
  intros H1 H2 H3 Hnat res. subst res.
  destruct (merge_json_run h d1 d2 d3 w l1 l2 l3 H1 H2 H3) as (fd & hp' & _ & Hfd & ->).
  destruct (json_round_trip_list h _ Hnat) as (js & -> & Hdec).
  split.
  - intros doc. destruct (open_w_fault h scene_path) as [e|]; events;
      intros Hin; positions Hin. injection Hin as ->. exact Hdec.
  - intros ->. exists fd, (JArray js). cbn [fst snd files].
    split; [reflexivity|]. split; [apply lookup_insert_eq|exact Hdec].
Qed.

Lemma merge_json_round_trip_witness :
  let res := merge_json quiet_host 1%positive 2%positive 3%positive example_world in
  let l := [PDict [(PStr "id", PInt 1)]]
             ++ [PDict [(PStr "id", PInt 2)]; PDict [(PStr "id", PInt 3)]] ++ [] in
  (forall doc, Wrote scene_path (FJson doc) ∈ new_events example_world (snd res) ->
     json_decode doc = PList l)
  /\ (open_w_fault quiet_host scene_path = None ->
      exists fd doc,
        fst res = Returned fd
        /\ files (snd res) !! scene_path = Some (FJson doc)
        /\ json_decode doc = PList l).
Proof.
  apply (merge_json_round_trip quiet_host 1%positive 2%positive 3%positive example_world).
  - vm_compute. reflexivity.
  - vm_compute. reflexivity.
  - vm_compute. reflexivity.
  - vm_compute. reflexivity.
Defined.

(** Other values the decoder does not give back: a dict with an int key
    comes back with a str key, and a set is refused by the encoder. *)
Example int_key_is_not_restored :
  outcome_bind (json_encode quiet_host (PDict [(PInt 1, PStr "a")]))
    (fun j => Returned (json_decode j))
  = Returned (PDict [(PStr "1", PStr "a")]).
Proof. vm_compute. reflexivity. Qed.

Example set_is_refused :
  json_encode quiet_host (PObject "set")
  = Raised (Exn TypeError "Object of type set is not JSON serializable").
Proof. vm_compute. reflexivity. Qed.

(** * Further properties *)

(** ** [add_border] *)

(** An image written by a run is the input image enlarged by the two borders
    the script computes, filled with white. *)
Lemma add_border_written_image h inp out r w img p img' :
  files w !! inp = Some (FImage img) ->
  Wrote p (FImage img') ∈ new_events w (snd (add_border h inp out r w)) ->
  exists bw bh,
    outcome_bind (int_mul (width img) r) py_int = Returned bw /\
    outcome_bind (int_mul (height img) r) py_int = Returned bh /\
    img' = mkImage (bw + width img + bw) (bh + height img + bh)
             (fun x y =>
                if (bw <=? x) && (x <? bw + width img)
                   && (bh <=? y) && (y <? bh + height img)
                then getpixel img (x - bw) (y - bh)
                else white).
Proof.
  intros Hfile. unfold_run. rewrite Hfile.
  destruct (open_fault h inp) as [e|]; [caught e|].
  destruct (outcome_bind (int_mul (width img) r) py_int) as [bw|e] eqn:Hbw; [|caught e].
  destruct (outcome_bind (int_mul (height img) r) py_int) as [bh|e] eqn:Hbh; [|caught e].
  destruct (_ || _); [caught (Exn ValueError "Width and height must be >= 0")|].
  destruct (expand_fault h img (bw, bh)) as [e|]; [caught e|].
  destruct (save_fault h _ out) as [[e []]|]; [caught e|caught e|].
  destruct (int_truediv _ _) as [q|e]; [|destruct (is_Exception e)]; events;
    intros Hin; positions Hin; injection Hin as -> ->;
    exists bw, bh; repeat split; reflexivity.
Qed.

(** X1. For a border_ratio r >= 0 and a valid input image, an image written
    by [add_border] shows the input image unchanged, moved by the border
    width and the border height, and is white everywhere else. *)
Theorem add_border_keeps_pixels h inp out r w img p img' :
  files w !! inp = Some (FImage img) ->
  0 < width img -> 0 < height img -> py_ge0 r = true ->
  Wrote p (FImage img') ∈ new_events w (snd (add_border h inp out r w)) ->
  exists bw bh,
    floor_mul (width img) r = Some bw /\ floor_mul (height img) r = Some bh
    /\ (forall x y, 0 <= x < width img -> 0 <= y < height img ->
          getpixel img' (x + bw) (y + bh) = getpixel img x y)
    /\ (forall x y, ~ (bw <= x < bw + width img /\ bh <= y < bh + height img) ->
          getpixel img' x y = white).
Proof.
  intros Hfile Hw Hh Hr Hin.
  destruct (add_border_written_image _ _ _ _ _ _ _ _ Hfile Hin) as (bw & bh & Hbw & Hbh & ->).
  apply border_floor in Hbw, Hbh; try assumption.
  exists bw, bh. split; [exact Hbw|]. split; [exact Hbh|]. cbn [getpixel]. split.
  - intros x y Hx Hy.
    replace ((bw <=? x + bw) && (x + bw <? bw + width img)
             && (bh <=? y + bh) && (y + bh <? bh + height img)) with true.
    + f_equal; lia.
    + symmetry. rewrite !andb_true_iff, !Z.leb_le, !Z.ltb_lt. lia.
  - intros x y Hout.
    destruct ((bw <=? x) && (x <? bw + width img)
              && (bh <=? y) && (y <? bh + height img)) eqn:Hin'; [|reflexivity].
    rewrite !andb_true_iff, !Z.leb_le, !Z.ltb_lt in Hin'. exfalso. apply Hout. lia.
Qed.

Lemma add_border_keeps_pixels_witness :
  exists bw bh,
    floor_mul (width tag) (PyFloat f0_25) = Some bw
    /\ floor_mul (height tag) (PyFloat f0_25) = Some bh
    /\ (forall x y, 0 <= x < width tag -> 0 <= y < height tag ->
          getpixel
            (mkImage 150 120 (fun x y =>
               if (25 <=? x) && (x <? 125) && (20 <=? y) && (y <? 100)
               then (0, 0, 0) else white)) (x + bw) (y + bh) = getpixel tag x y)
    /\ (forall x y, ~ (bw <= x < bw + width tag /\ bh <= y < bh + height tag) ->
          getpixel
            (mkImage 150 120 (fun x y =>
               if (25 <=? x) && (x <? 125) && (20 <=? y) && (y <? 100)
               then (0, 0, 0) else white)) x y = white).
Proof.
  apply (add_border_keeps_pixels quiet_host "public/tag25h9-origin.png"
           "public/tag-with-border.png" (PyFloat f0_25) tag_world tag
           "public/tag-with-border.png").
  - vm_compute. reflexivity.
  - vm_compute. reflexivity.
  - vm_compute. reflexivity.
  - vm_compute. reflexivity.
  - vm_compute. do 3 apply list_elem_of_further. apply list_elem_of_here.
Defined.

(** X2. [add_border] changes no file other than [output_path], and leaves
    the store as it is, whatever the input and whatever fails. *)
Theorem add_border_touches_output_only h inp out r w p :
  p <> out ->
  files (snd (add_border h inp out r w)) !! p = files w !! p
  /\ heap (snd (add_border h inp out r w)) = heap w.
Proof.
  intros Hp. unfold_run.
  destruct (files w !! inp) as [f|];
    [|cbn [is_Exception exn_cls]; split; reflexivity].
  destruct (open_fault h inp) as [e|]; [destruct (is_Exception e); split; reflexivity|].
  destruct f as [img| | |];
    try (cbn [is_Exception exn_cls]; split; reflexivity).
  destruct (outcome_bind (int_mul (width img) r) py_int) as [bw|e];
    [|destruct (is_Exception e); split; reflexivity].
  destruct (outcome_bind (int_mul (height img) r) py_int) as [bh|e];
    [|destruct (is_Exception e); split; reflexivity].
  destruct (_ || _); [cbn [is_Exception exn_cls]; split; reflexivity|].
  destruct (expand_fault h img (bw, bh)) as [e|];
    [destruct (is_Exception e); split; reflexivity|].
  destruct (save_fault h _ out) as [[e []]|].
  - destruct (is_Exception e); cbn [files heap snd]; split;
      try reflexivity; apply lookup_insert_ne; congruence.
  - destruct (is_Exception e); split; reflexivity.
  - destruct (int_truediv _ _) as [q|e]; [|destruct (is_Exception e)];
      cbn [files heap snd]; split; try reflexivity; apply lookup_insert_ne; congruence.
Qed.

Lemma add_border_touches_output_only_witness :
  files (snd (add_border quiet_host "public/tag25h9-origin.png"
                "public/tag-with-border.png" (PyFloat f0_25) tag_world))
    !! "public/tag25h9-origin.png"
  = files tag_world !! "public/tag25h9-origin.png"
  /\ heap (snd (add_border quiet_host "public/tag25h9-origin.png"
                  "public/tag-with-border.png" (PyFloat f0_25) tag_world))
     = heap tag_world.
Proof.
  apply (add_border_touches_output_only quiet_host "public/tag25h9-origin.png"
           "public/tag-with-border.png" (PyFloat f0_25) tag_world
           "public/tag25h9-origin.png").
  discriminate.
Defined.

(** The lines of a finished run, from the events it added. *)
Ltac lines :=
  cbn [files heap trace fst snd]; rewrite <- ?app_assoc, ?stdout_app; cbn [omap app].

(** X3. When the failures of Pillow are instances of [Exception],
    [add_border] returns and has printed one error line, or the line of the
    created image and one error line, or the line of the created image and
    the line of the ratio; in the last two cases the file at [output_path]
    holds the image whose size was printed. Run as a script, it ends with
    status 0 in every case. *)
Theorem add_border_output_shape h inp out r w :
  host_raises_exceptions h ->
  exists w',
    add_border h inp out r w = (Returned tt, w')
    /\ fst (python (add_border h inp out r) w) = 0
    /\ ((exists e, stdout w' = stdout w ++ [error_line e])
        \/ (exists img' e,
              stdout w' = stdout w ++ [created_line out (size img'); error_line e]
              /\ files w' !! out = Some (FImage img'))
        \/ (exists img' x,
              stdout w' = stdout w ++ [created_line out (size img'); ratio_line x]
              /\ files w' !! out = Some (FImage img'))).
Proof.
  intros (Hopen & Hexpand & Hsave).
  unfold python, add_border, try_except, add_border_body, Image_open, ImageOps_expand,
    Image_save, print, write_file, bind, emit, lift, raise, ret.
  cbn [files heap trace fst snd].
  destruct (files w !! inp) as [f|].
  2: { cbn [is_Exception exn_cls]. eexists. split; [reflexivity|].
       split; [reflexivity|]. left. eexists. lines. reflexivity. }
  destruct (open_fault h inp) as [e|] eqn:Hof.
  { cbn [files heap trace fst snd]. rewrite (Hopen _ _ Hof). eexists. split; [reflexivity|].
    split; [reflexivity|]. left. eexists. lines. reflexivity. }
  destruct f as [img| | |];
    try (cbn [is_Exception exn_cls]; eexists; split; [reflexivity|];
         split; [reflexivity|]; left; eexists; lines; reflexivity).
  destruct (outcome_bind (int_mul (width img) r) py_int) as [bw|e] eqn:Hbw.
  2: { cbn [files heap trace fst snd]. rewrite (border_raises_exception _ _ _ Hbw). eexists. split; [reflexivity|].
       split; [reflexivity|]. left. eexists. lines. reflexivity. }
  destruct (outcome_bind (int_mul (height img) r) py_int) as [bh|e] eqn:Hbh.
  2: { cbn [files heap trace fst snd]. rewrite (border_raises_exception _ _ _ Hbh). eexists. split; [reflexivity|].
       split; [reflexivity|]. left. eexists. lines. reflexivity. }
  destruct (_ || _).
  { cbn [is_Exception exn_cls]. eexists. split; [reflexivity|].
    split; [reflexivity|]. left. eexists. lines. reflexivity. }
  destruct (expand_fault h img (bw, bh)) as [e|] eqn:Hef.
  { cbn [files heap trace fst snd]. rewrite (Hexpand _ _ _ Hef). eexists. split; [reflexivity|].
    split; [reflexivity|]. left. eexists. lines. reflexivity. }
  destruct (save_fault h _ out) as [[e d]|] eqn:Hsf.
  { destruct d; cbn [files heap trace fst snd]; rewrite (Hsave _ _ _ _ Hsf); eexists; (split; [reflexivity|]); (split; [reflexivity|]);
      left; eexists; lines; reflexivity. }
  destruct (int_truediv _ _) as [q|e] eqn:Hq.
  - eexists. split; [reflexivity|]. split; [reflexivity|]. right. right.
    eexists _, q. lines. split; [reflexivity|]. apply lookup_insert_eq.
  - cbn [files heap trace fst snd]. rewrite (int_truediv_raises_exception _ _ _ Hq).
    eexists. split; [reflexivity|]. split; [reflexivity|]. right. left.
    eexists _, e. lines. split; [reflexivity|]. apply lookup_insert_eq.
Qed.

Lemma add_border_output_shape_witness :
  exists w',
    add_border quiet_host "public/tag25h9-origin.png" "public/tag-with-border.png"
      (PyFloat f0_25) tag_world = (Returned tt, w')
    /\ fst (python (add_border quiet_host "public/tag25h9-origin.png"
                      "public/tag-with-border.png" (PyFloat f0_25)) tag_world) = 0
    /\ ((exists e, stdout w' = stdout tag_world ++ [error_line e])
        \/ (exists img' e,
              stdout w' = stdout tag_world
                ++ [created_line "public/tag-with-border.png" (size img'); error_line e]
              /\ files w' !! "public/tag-with-border.png" = Some (FImage img'))
        \/ (exists img' x,
              stdout w' = stdout tag_world
                ++ [created_line "public/tag-with-border.png" (size img'); ratio_line x]
              /\ files w' !! "public/tag-with-border.png" = Some (FImage img'))).
Proof.
  apply (add_border_output_shape quiet_host "public/tag25h9-origin.png"
           "public/tag-with-border.png" (PyFloat f0_25) tag_world).
  unfold host_raises_exceptions, quiet_host; simpl.
  repeat split; intros; discriminate.
Defined.

Lemma nonfinite_border n r :
  py_nonfinite r = true ->
  exists e, outcome_bind (int_mul n r) py_int = Raised e
            /\ (exn_cls e = ValueError \/ exn_cls e = OverflowError).
Proof.
  destruct r as [k|[s|s| |s m e]]; try discriminate; intros _;
    cbn [int_mul]; unfold int_to_float;
    destruct (binary_normalize prec emax n 0 false) as [sn|sn| |sn mn en];
    cbn [outcome_bind SFmul py_int]; eexists; split;
    try reflexivity; cbn [exn_cls]; auto.
Qed.

(** X4. With a border_ratio that is NaN or an infinity, [add_border] on an
    image that opens writes nothing: it prints one error line, of a
    [ValueError] or an [OverflowError], and returns. *)
Theorem add_border_nonfinite_ratio h inp out r w img :
  files w !! inp = Some (FImage img) -> open_fault h inp = None ->
  py_nonfinite r = true ->
  exists e w',
    (exn_cls e = ValueError \/ exn_cls e = OverflowError)
    /\ add_border h inp out r w = (Returned tt, w')
    /\ files w' = files w
    /\ new_events w w' = [CallImageOpen inp; Printed (error_line e)].
Proof.
  intros Hfile Hof Hr.
  destruct (nonfinite_border (width img) r Hr) as (e & Hbw & Hcls).
  exists e. eexists. split; [exact Hcls|].
  unfold_run. rewrite Hfile, Hof, Hbw.
  replace (is_Exception e) with true
    by (unfold is_Exception; destruct Hcls as [-> | ->]; reflexivity).
  events. repeat split; reflexivity.
Qed.

Lemma add_border_nonfinite_ratio_witness :
  exists e w',
    (exn_cls e = ValueError \/ exn_cls e = OverflowError)
    /\ add_border quiet_host "public/tag25h9-origin.png" "public/tag-with-border.png"
         (PyFloat S754_nan) tag_world = (Returned tt, w')
    /\ files w' = files tag_world
    /\ new_events tag_world w'
       = [CallImageOpen "public/tag25h9-origin.png"; Printed (error_line e)].
Proof.
  apply (add_border_nonfinite_ratio quiet_host "public/tag25h9-origin.png"
           "public/tag-with-border.png" (PyFloat S754_nan) tag_world tag).
  - vm_compute. reflexivity.
  - vm_compute. reflexivity.
  - vm_compute. reflexivity.
Defined.

(** X6. When [save] fails, [add_border] prints neither the line of the
    created image nor the ratio: it prints the error line and returns, and
    the file at [output_path] is as it was or, when the failure came after
    the file was opened, partial. *)
Theorem add_border_save_failure h inp out r w img bw bh e d :
  files w !! inp = Some (FImage img) -> open_fault h inp = None ->
  outcome_bind (int_mul (width img) r) py_int = Returned bw ->
  outcome_bind (int_mul (height img) r) py_int = Returned bh ->
  0 <= width img + 2 * bw -> 0 <= height img + 2 * bh ->
  expand_fault h img (bw, bh) = None ->
  (forall i, save_fault h i out = Some (e, d)) -> is_Exception e = true ->
  exists w',
    add_border h inp out r w = (Returned tt, w')
    /\ stdout w' = stdout w ++ [error_line e]
    /\ files w' = (if d then <[out := FPartial]> (files w) else files w)
    /\ new_events w w'
       = [CallImageOpen inp; CallExpand (bw, bh); CallSave out]
           ++ (if d then [Wrote out FPartial] else [])
           ++ [Printed (error_line e)].
Proof.
  intros Hfile Hof Hbw Hbh Hw Hh Hef Hsf Hexn.
  destruct d; eexists; unfold_run; rewrite Hfile, Hof, Hbw, Hbh;
    (replace (_ || _) with false
      by (symmetry; apply orb_false_intro; apply Z.ltb_ge; cbn [fst snd]; lia));
    rewrite Hef, Hsf; cbn [files heap trace fst snd]; rewrite Hexn;
    (split; [reflexivity|]); lines; events; repeat split; reflexivity.
Qed.

Lemma add_border_save_failure_witness :
  exists w',
    add_border full_disk_host "public/tag25h9-origin.png" "public/tag-with-border.png"
      (PyFloat f0_25) tag_world = (Returned tt, w')
    /\ stdout w' = stdout tag_world
         ++ [error_line (Exn OSError "[Errno 28] No space left on device")]
    /\ files w' = (if true then <["public/tag-with-border.png" := FPartial]> (files tag_world)
                   else files tag_world)
    /\ new_events tag_world w'
       = [CallImageOpen "public/tag25h9-origin.png"; CallExpand (25, 20);
          CallSave "public/tag-with-border.png"]
           ++ (if true then [Wrote "public/tag-with-border.png" FPartial] else [])
           ++ [Printed (error_line (Exn OSError "[Errno 28] No space left on device"))].
Proof.
  apply (add_border_save_failure full_disk_host "public/tag25h9-origin.png"
           "public/tag-with-border.png" (PyFloat f0_25) tag_world tag 25 20
           (Exn OSError "[Errno 28] No space left on device") true).
  - vm_compute. reflexivity.
  - vm_compute. reflexivity.
  - vm_compute. reflexivity.
  - vm_compute. reflexivity.
  - vm_compute. discriminate.
  - vm_compute. discriminate.
  - vm_compute. reflexivity.
  - intros i. vm_compute. reflexivity.
  - vm_compute. reflexivity.
Defined.

(** An int divided by itself is 1.0, whatever its size. *)
Lemma int_truediv_self n : 0 < n -> int_truediv n n = Returned f1_0.
Proof.
  destruct n as [|m|m]; try lia. intros _.
  unfold int_truediv. cbn [Z.eqb Z2SF SFdiv xorb].
  unfold SFdiv_core_binary.
  replace (Zdigits2 (Z.pos m) + 0 - (Zdigits2 (Z.pos m) + 0)) with 0 by lia.
  change (Z.min (fexp prec emax 0) (0 - 0)) with (-53).
  change (0 - 0 - -53) with 53.
  cbv iota beta zeta.
  destruct (Z.div_eucl (Z.shiftl (Z.pos m) 53) (Z.pos m)) as [q rm] eqn:Hdiv.
  assert (q = 2 ^ 53 /\ rm = 0) as [-> ->].
  { assert (Z.shiftl (Z.pos m) 53 / Z.pos m = 2 ^ 53
            /\ (Z.shiftl (Z.pos m) 53) mod Z.pos m = 0) as Hdm.
    { rewrite Z.shiftl_mul_pow2, (Z.mul_comm (Z.pos m)) by lia.
      split; [apply Z.div_mul|apply Z.mod_mul]; lia. }
    unfold Z.div, Z.modulo in Hdm. rewrite Hdiv in Hdm. destruct Hdm; auto. }
  assert (new_location (Z.pos m) 0 = loc_Exact) as ->.
  { unfold new_location, new_location_even, new_location_odd.
    destruct (Z.even (Z.pos m)); reflexivity. }
  vm_compute. reflexivity.
Qed.

(** X7. With border_ratio 0 (or 0.0) and an image of width w > 0, a width
    ratio printed by [add_border] is exactly 1.0. *)
Theorem add_border_zero_ratio_prints_one h inp out r w img x :
  files w !! inp = Some (FImage img) -> 0 < width img -> is_zero r = true ->
  Printed (ratio_line x) ∈ new_events w (snd (add_border h inp out r w)) ->
  x = f1_0.
Proof.
  intros Hfile Hw Hz Hin.
  destruct (add_border_ratio_printed _ _ _ _ _ _ _ Hfile Hin) as (bw & Hbw & Hq).
  apply (zero_border _ _ _ Hz) in Hbw. subst bw.
  replace (width img + 2 * 0) with (width img) in Hq by lia.
  rewrite (int_truediv_self _ Hw) in Hq. congruence.
Qed.

Lemma add_border_zero_ratio_prints_one_witness : f1_0 = f1_0.
Proof.
  apply (add_border_zero_ratio_prints_one quiet_host "public/tag25h9-origin.png"
           "public/tag-with-border.png" (PyInt 0) tag_world tag f1_0).
  - vm_compute. reflexivity.
  - vm_compute. reflexivity.
  - vm_compute. reflexivity.
  - vm_compute. do 5 apply list_elem_of_further. apply list_elem_of_here.
Defined.

Lemma SFmul_not_positive x y :
  match x with
  | S754_zero s | S754_infinity s | S754_finite s _ _ => s = false
  | S754_nan => True
  end ->
  SFleb y (S754_zero false) = true ->
  match SFmul prec emax x y with
  | S754_finite false _ _ => False
  | _ => True
  end.
Proof.
  destruct x as [sx|sx| |sx mx ex], y as [sy|sy| |[] my ey];
    simpl; try exact (fun _ _ => I); try discriminate.
  intros -> _.
  pose proof (binary_round_aux_sign (xorb false true) (Zpos (mx * my)) (ex + ey) loc_Exact)
    as Hs.
  destruct (binary_round_aux _ _ _ _ _ _) as [s|s| |s m e]; try exact I.
  simpl in Hs. subst s. exact I.
Qed.

Lemma Qceiling_neg_shift (m : positive) (e : Z) :
  Qceiling (inject_Z (- Zpos m) * Qpower 2 e)%Q = - Z.shiftl (Zpos m) e.
Proof.
  unfold Qceiling. f_equal. rewrite <- (Qfloor_shift m e).
  apply Qfloor_comp. rewrite inject_Z_opp. ring.
Qed.

(** For a ratio that is not positive, [int] gives the ceiling of the
    product. *)
Lemma border_ceil n r b :
  0 < n -> py_le0 r = true ->
  outcome_bind (int_mul n r) py_int = Returned b <-> ceil_mul n r = Some b.
Proof.
  intros Hn Hr. unfold ceil_mul.
  destruct r as [k|x]; cbn [int_mul outcome_bind py_int py_finite pynum2Q py_le0] in *.
  - rewrite Qceiling_Z. split; congruence.
  - destruct (int_to_float n) as [fn|e] eqn:Hfn; cbn [outcome_bind];
      [|split; discriminate].
    pose proof (SFmul_not_positive fn x
                  (int_to_float_not_negative n fn ltac:(lia) Hfn) Hr) as Hnp.
    destruct (SFmul prec emax fn x) as [s|s| |[] m e];
      cbn [py_int py_finite pynum2Q SF2Q cond_Zopp] in *;
      try contradiction; try (split; discriminate).
    + split; intros [= <-]; reflexivity.
    + rewrite Qceiling_neg_shift. split; intros [= <-]; reflexivity.
Qed.

Lemma ceil_mul_nonpos n r b :
  0 < n -> py_le0 r = true -> ceil_mul n r = Some b -> b <= 0.
Proof.
  intros Hn Hr. unfold ceil_mul.
  destruct r as [k|x]; cbn [int_mul py_finite pynum2Q py_le0] in *.
  - rewrite Qceiling_Z. intros [= <-]. apply Z.leb_le in Hr. nia.
  - destruct (int_to_float n) as [fn|e] eqn:Hfn; [|discriminate].
    pose proof (SFmul_not_positive fn x
                  (int_to_float_not_negative n fn ltac:(lia) Hfn) Hr) as Hnp.
    destruct (SFmul prec emax fn x) as [s|s| |[] m e];
      cbn [py_finite pynum2Q SF2Q cond_Zopp] in *;
      try contradiction; try discriminate.
    + intros [= <-]. vm_compute. discriminate.
    + rewrite Qceiling_neg_shift. intros [= <-].
      pose proof (Z.shiftl_nonneg (Zpos m) e). lia.
Qed.

(** The run with -0.25 on the sample tag: a 50 by 40 image. *)
Example add_border_crops :
  match files (snd (add_border quiet_host "public/tag25h9-origin.png"
                      "public/tag-with-border.png"
                      (PyFloat (S754_finite true 4503599627370496 (-54))) tag_world))
          !! "public/tag-with-border.png" with
  | Some (FImage img') => size img' = (50, 40)
  | _ => False
  end.
Proof. vm_compute. reflexivity. Qed.

(** ** The script's own call: a ratio of 0.25 *)

Lemma iter_pos_iter {A} (f : A -> A) (n : positive) (x : A) :
  SpecFloat.iter_pos f n x = Pos.iter f x n.
Proof.
  revert x. induction n as [n IH|n IH|]; intros x; cbn [SpecFloat.iter_pos Pos.iter].
  - rewrite !IH. rewrite <- !Pos.iter_swap. reflexivity.
  - rewrite !IH. reflexivity.
  - reflexivity.
Qed.

(** Shifting right the mantissa that was shifted left, bit by bit, gives
    the mantissa back and loses nothing. *)
Lemma shr_shifted (m j : positive) :
  SpecFloat.iter_pos shr_1 j (Build_shr_record (Zpos (Pos.iter xO m j)) false false)
  = Build_shr_record (Zpos m) false false.
Proof.
  rewrite iter_pos_iter. induction j as [|j IH] using Pos.peano_ind.
  - reflexivity.
  - rewrite Pos.iter_succ_r, Pos.iter_succ. cbn [shr_1 orb]. exact IH.
Qed.

Lemma digits2_pos_shifted (m j : positive) :
  digits2_pos (Pos.iter xO m j) = (digits2_pos m + j)%positive.
Proof.
  induction j as [|j IH] using Pos.peano_ind.
  - cbn [Pos.iter digits2_pos]. lia.
  - rewrite Pos.iter_succ. cbn [digits2_pos]. rewrite IH. lia.
Qed.

Lemma Zpos_shifted (m j : positive) :
  Zpos (Pos.iter xO m j) = Zpos m * 2 ^ Zpos j.
Proof.
  induction j as [|j IH] using Pos.peano_ind.
  - cbn [Pos.iter]. lia.
  - rewrite Pos.iter_succ, Pos2Z.inj_succ, Z.pow_succ_r by lia.
    rewrite Pos2Z.inj_xO, IH. ring.
Qed.

Lemma digits2_pos_bounds (m : positive) :
  2 ^ (Zpos (digits2_pos m) - 1) <= Zpos m < 2 ^ Zpos (digits2_pos m).
Proof.
  induction m as [m IH|m IH|]; cbn [digits2_pos].
  - rewrite Pos2Z.inj_succ, Z.pow_succ_r by lia.
    replace (Z.succ (Zpos (digits2_pos m)) - 1) with (Z.succ (Zpos (digits2_pos m) - 1))
      by lia.
    rewrite Z.pow_succ_r by lia. lia.
  - rewrite Pos2Z.inj_succ, Z.pow_succ_r by lia.
    replace (Z.succ (Zpos (digits2_pos m)) - 1) with (Z.succ (Zpos (digits2_pos m) - 1))
      by lia.
    rewrite Z.pow_succ_r by lia. lia.
  - cbn. lia.
Qed.

(** Rounding a mantissa that is already in canonical position changes
    nothing. *)
Lemma binary_round_aux_canonical s m e :
  canonical_mantissa prec emax m e = true -> e <= emax - prec ->
  binary_round_aux prec emax s (Zpos m) e loc_Exact = S754_finite s m e.
Proof.
  intros Hcan He. unfold canonical_mantissa in Hcan. apply Z.eqb_eq in Hcan.
  unfold binary_round_aux, shr_fexp. cbn [Zdigits2 shr_record_of_loc].
  rewrite Hcan, Z.sub_diag. cbn [shr shr_m loc_of_shr_record round_nearest_even].
  cbn [Zdigits2 shr_record_of_loc]. rewrite Hcan, Z.sub_diag. cbn [shr shr_m].
  apply Z.leb_le in He. rewrite He. reflexivity.
Qed.

(** Rounding a mantissa that is a canonical one shifted left by [j] bits
    gives the canonical one, exactly. *)
Lemma binary_round_aux_shifted s m j e :
  canonical_mantissa prec emax m (e + Zpos j) = true -> e + Zpos j <= emax - prec ->
  binary_round_aux prec emax s (Zpos (Pos.iter xO m j)) e loc_Exact
  = S754_finite s m (e + Zpos j).
Proof.
  intros Hcan He. pose proof Hcan as Hcan'.
  unfold canonical_mantissa in Hcan. apply Z.eqb_eq in Hcan.
  unfold binary_round_aux, shr_fexp. cbn [Zdigits2 shr_record_of_loc].
  rewrite digits2_pos_shifted.
  replace (Zpos (digits2_pos m + j) + e) with (Zpos (digits2_pos m) + (e + Zpos j))
    by lia.
  rewrite Hcan. replace (e + Zpos j - e) with (Zpos j) by lia.
  cbn [shr]. rewrite shr_shifted.
  cbn [shr_m loc_of_shr_record round_nearest_even].
  cbn [Zdigits2 shr_record_of_loc]. rewrite Hcan, Z.sub_diag. cbn [shr shr_m].
  apply Z.leb_le in He. rewrite He. reflexivity.
Qed.

(** [float(n)] is exact below 2^53: the result is a canonical mantissa of 53
    bits that stands for [n]. *)
Lemma int_to_float_exact n :
  0 < n < 2 ^ 53 ->
  exists m k,
    int_to_float n = Returned (S754_finite false m (- k))
    /\ 0 <= k <= 52 /\ Zpos m = n * 2 ^ k /\ Zpos (digits2_pos m) = 53.
Proof.
  destruct n as [|p|p]; try lia. intros [_ Hn].
  pose proof (digits2_pos_bounds p) as [Hlo Hhi].
  assert (Zpos (digits2_pos p) <= 53) as Hd.
  { destruct (Z_le_gt_dec (Zpos (digits2_pos p)) 53) as [|Hgt]; [assumption|].
    assert (2 ^ 53 <= 2 ^ (Zpos (digits2_pos p) - 1))
      by (apply Z.pow_le_mono_r; lia). lia. }
  unfold int_to_float, binary_normalize, binary_round, shl_align.
  replace (fexp prec emax (Zpos (digits2_pos p) + 0)) with (Zpos (digits2_pos p) - 53)
    by (unfold fexp, emin, prec, emax; lia).
  destruct (Zpos (digits2_pos p) - 53 - 0) as [|j|j] eqn:Hj; try lia.
  - exists p, 0.
    replace (Zpos (digits2_pos p) - 53) with 0 by lia.
    rewrite binary_round_aux_canonical.
    + split; [reflexivity|]. repeat split; lia.
    + unfold canonical_mantissa, fexp, emin, prec, emax. apply Z.eqb_eq. lia.
    + unfold prec, emax. lia.
  - exists (Pos.iter xO p j), (Zpos j).
    replace (Zpos (digits2_pos p) - 53) with (- Zpos j) by lia.
    rewrite binary_round_aux_canonical.
    + split; [reflexivity|]. split; [lia|]. split; [apply Zpos_shifted|].
      rewrite digits2_pos_shifted. lia.
    + unfold canonical_mantissa. rewrite digits2_pos_shifted.
      unfold fexp, emin, prec, emax. apply Z.eqb_eq. lia.
    + unfold prec, emax. lia.
Qed.

(** With 0.25 the product is exact and the border is the quarter of the
    side, rounded down. *)
Lemma quarter_border n :
  0 < n < 2 ^ 53 ->
  outcome_bind (int_mul n (PyFloat f0_25)) py_int = Returned (n / 4).
Proof.
  intros Hn. destruct (int_to_float_exact n Hn) as (m & k & Hf & Hk & Hm & Hd).
  cbn [int_mul]. rewrite Hf. cbn [outcome_bind]. unfold f0_25. cbn [SFmul xorb].
  rewrite Pos.mul_comm.
  change (Zpos (4503599627370496 * m)) with (Zpos (Pos.iter xO m 52)).
  rewrite binary_round_aux_shifted.
  - cbn [py_int cond_Zopp]. f_equal.
    replace (- k + -54 + 52) with (- (k + 2)) by lia.
    rewrite Z.shiftl_opp_r, Z.shiftr_div_pow2 by lia.
    rewrite Hm, Z.pow_add_r by lia.
    change (2 ^ 2) with 4. rewrite (Z.mul_comm (2 ^ k) 4).
    assert (2 ^ k <> 0) by (apply Z.pow_nonzero; lia).
    rewrite Z.div_mul_cancel_r by lia. reflexivity.
  - unfold canonical_mantissa. rewrite Hd.
    unfold fexp, emin, prec, emax. apply Z.eqb_eq. lia.
  - unfold prec, emax. lia.
Qed.

(** Three halves: the quotient of 3c by 2c is the binary64 1.5, whatever
    the size of c. *)
Lemma int_truediv_three_halves c :
  0 < c -> int_truediv (3 * c) (2 * c) = Returned f1_5.
Proof.
  intros Hc.
  destruct (3 * c) as [|pa|pa] eqn:Ha; try lia.
  destruct (2 * c) as [|pb|pb] eqn:Hb; try lia.
  pose proof (digits2_pos_bounds pa) as [Halo Hahi].
  pose proof (digits2_pos_bounds pb) as [Hblo Hbhi].
  assert (Zpos (digits2_pos pa) - Zpos (digits2_pos pb) = 0
          \/ Zpos (digits2_pos pa) - Zpos (digits2_pos pb) = 1) as Hd.
  { assert (Zpos (digits2_pos pb) <= Zpos (digits2_pos pa)).
    { destruct (Z_le_gt_dec (Zpos (digits2_pos pb)) (Zpos (digits2_pos pa)));
        [assumption|].
      assert (2 ^ Zpos (digits2_pos pa) <= 2 ^ (Zpos (digits2_pos pb) - 1))
        by (apply Z.pow_le_mono_r; lia). lia. }
    assert (Zpos (digits2_pos pa) <= Zpos (digits2_pos pb) + 1).
    { destruct (Z_le_gt_dec (Zpos (digits2_pos pa)) (Zpos (digits2_pos pb) + 1));
        [assumption|].
      assert (2 ^ (Zpos (digits2_pos pb) + 1) <= 2 ^ (Zpos (digits2_pos pa) - 1))
        by (apply Z.pow_le_mono_r; lia).
      rewrite Z.pow_add_r in * by lia. lia. }
    lia. }
  unfold int_truediv. cbn [Z.eqb Z2SF SFdiv xorb].
  unfold SFdiv_core_binary. cbn [Zdigits2].
  replace (Zpos (digits2_pos pa) + 0 - (Zpos (digits2_pos pb) + 0))
    with (Zpos (digits2_pos pa) - Zpos (digits2_pos pb)) by lia.
  assert (new_location (Z.pos pb) 0 = loc_Exact) as Hloc.
  { unfold new_location, new_location_even, new_location_odd.
    destruct (Z.even (Z.pos pb)); reflexivity. }
  destruct Hd as [-> | ->].
  - change (Z.min (fexp prec emax 0) (0 - 0)) with (-53).
    change (0 - 0 - -53) with 53. cbv iota beta zeta.
    destruct (Z.div_eucl (Z.shiftl (Z.pos pa) 53) (Z.pos pb)) as [q rm] eqn:Hdiv.
    assert (q = 3 * 2 ^ 52 /\ rm = 0) as [-> ->].
    { assert (Z.shiftl (Z.pos pa) 53 / Z.pos pb = 3 * 2 ^ 52
              /\ (Z.shiftl (Z.pos pa) 53) mod Z.pos pb = 0) as Hdm.
      { rewrite Z.shiftl_mul_pow2 by lia.
        replace (Z.pos pa * 2 ^ 53) with (3 * 2 ^ 52 * Z.pos pb) by lia.
        split; [apply Z.div_mul|apply Z.mod_mul]; lia. }
      unfold Z.div, Z.modulo in Hdm. rewrite Hdiv in Hdm. destruct Hdm; auto. }
    rewrite Hloc. vm_compute. reflexivity.
  - change (Z.min (fexp prec emax 1) (0 - 0)) with (-52).
    change (0 - 0 - -52) with 52. cbv iota beta zeta.
    destruct (Z.div_eucl (Z.shiftl (Z.pos pa) 52) (Z.pos pb)) as [q rm] eqn:Hdiv.
    assert (q = 3 * 2 ^ 51 /\ rm = 0) as [-> ->].
    { assert (Z.shiftl (Z.pos pa) 52 / Z.pos pb = 3 * 2 ^ 51
              /\ (Z.shiftl (Z.pos pa) 52) mod Z.pos pb = 0) as Hdm.
      { rewrite Z.shiftl_mul_pow2 by lia.
        replace (Z.pos pa * 2 ^ 52) with (3 * 2 ^ 51 * Z.pos pb) by lia.
        split; [apply Z.div_mul|apply Z.mod_mul]; lia. }
      unfold Z.div, Z.modulo in Hdm. rewrite Hdiv in Hdm. destruct Hdm; auto. }
    rewrite Hloc. vm_compute. reflexivity.
Qed.

(** X13. The script's own call, with a ratio of 0.25, computes without
    rounding: on an image with sides below 2^53, an image it writes is at
    public/tag-with-border.png and has width w + 2*(w div 4) and height
    h + 2*(h div 4); and it is written whenever the host lets the Pillow
    calls through. *)
Theorem add_border_main_quarter h w img :
  files w !! "public/tag25h9-origin.png" = Some (FImage img) ->
  0 < width img < 2 ^ 53 -> 0 < height img < 2 ^ 53 ->
  let w' := snd (add_border_main h w) in
  (forall p img', Wrote p (FImage img') ∈ new_events w w' ->
     p = "public/tag-with-border.png"
     /\ size img' = (width img + 2 * (width img / 4), height img + 2 * (height img / 4)))
  /\ (open_fault h "public/tag25h9-origin.png" = None ->
      expand_fault h img (width img / 4, height img / 4) = None ->
      (forall i, save_fault h i "public/tag-with-border.png" = None) ->
      exists img', Wrote "public/tag-with-border.png" (FImage img') ∈ new_events w w').
Proof.
  intros Hfile Hw Hh w'. subst w'. unfold add_border_main.
  fold f0_25. split.
  - intros p img' Hin.
    destruct (add_border_written _ _ _ _ _ _ _ _ Hfile Hin)
      as (Hp & _ & bw & bh & Hbw & Hbh & Hwd & Hht).
    rewrite (quarter_border _ Hw) in Hbw. rewrite (quarter_border _ Hh) in Hbh.
    injection Hbw as <-. injection Hbh as <-.
    split; [exact Hp|]. unfold size. rewrite Hwd, Hht. reflexivity.
  - intros Hof Hef Hsf.
    pose proof (Z.div_pos (width img) 4 ltac:(lia) ltac:(lia)).
    pose proof (Z.div_pos (height img) 4 ltac:(lia) ltac:(lia)).
    apply (add_border_writes h _ _ (PyFloat f0_25) w img (width img / 4) (height img / 4));
      try assumption; try (apply quarter_border; assumption); lia.
Qed.

Lemma add_border_main_quarter_witness :
  let w' := snd (add_border_main quiet_host tag_world) in
  (forall p img', Wrote p (FImage img') ∈ new_events tag_world w' ->
     p = "public/tag-with-border.png"
     /\ size img' = (width tag + 2 * (width tag / 4), height tag + 2 * (height tag / 4)))
  /\ (open_fault quiet_host "public/tag25h9-origin.png" = None ->
      expand_fault quiet_host tag (width tag / 4, height tag / 4) = None ->
      (forall i, save_fault quiet_host i "public/tag-with-border.png" = None) ->
      exists img', Wrote "public/tag-with-border.png" (FImage img')
                     ∈ new_events tag_world w').
Proof.
  apply (add_border_main_quarter quiet_host tag_world tag).
  - vm_compute. reflexivity.
  - vm_compute. split; reflexivity.
  - vm_compute. split; reflexivity.
Defined.

(** X14. On an image whose width is a multiple of 4 (below 2^53), a width
    ratio printed by the script's own call is exactly 1.5, that is
    1 + 2 * 0.25 as the comment in the source has it. *)
Theorem add_border_main_ratio h w img x :
  files w !! "public/tag25h9-origin.png" = Some (FImage img) ->
  0 < width img < 2 ^ 53 -> (width img) mod 4 = 0 ->
  Printed (ratio_line x) ∈ new_events w (snd (add_border_main h w)) ->
  x = f1_5.
Proof.
  intros Hfile Hw Hmod Hin. unfold add_border_main in Hin. fold f0_25 in Hin.
  destruct (add_border_ratio_printed _ _ _ _ _ _ _ Hfile Hin) as (bw & Hbw & Hq).
  rewrite (quarter_border _ Hw) in Hbw. injection Hbw as <-.
  pose proof (Z.div_mod (width img) 4 ltac:(lia)) as Hdm. rewrite Hmod in Hdm.
  set (t := width img / 4) in *.
  replace (width img + 2 * t) with (3 * (2 * t)) in Hq by lia.
  replace (width img) with (2 * (2 * t)) in Hq by lia.
  rewrite int_truediv_three_halves in Hq by lia. congruence.
Qed.

Lemma add_border_main_ratio_witness : f1_5 = f1_5.
Proof.
  apply (add_border_main_ratio quiet_host tag_world tag f1_5).
  - vm_compute. reflexivity.
  - vm_compute. split; reflexivity.
  - vm_compute. reflexivity.
  - vm_compute. do 5 apply list_elem_of_further. apply list_elem_of_here.
Defined.

(** ** [merge_json] *)

(** The encoder accepts exactly the serializable values, and a refusal is a
    [TypeError]. *)
Lemma json_encode_decides h v :
  if json_serializable v
  then exists j, json_encode h v = Returned j
  else exists e, json_encode h v = Raised e /\ exn_cls e = TypeError.
Proof.
  induction v as [ |b|n|x|s|items IH|items IH|entries IH|n] using pyval_nested_ind;
    cbn [json_serializable json_encode]; try (eexists; reflexivity).
  - assert (if forallb json_serializable items
            then exists js, mapM_outcome (json_encode h) items = Returned js
            else exists e, mapM_outcome (json_encode h) items = Raised e
                           /\ exn_cls e = TypeError) as Hitems.
    { induction IH as [|v items Hv _ IHitems]; cbn [forallb mapM_outcome].
      - eexists; reflexivity.
      - destruct (json_serializable v); cbn [andb].
        + destruct Hv as (j & ->).
          destruct (forallb json_serializable items).
          * destruct IHitems as (js & ->). eexists; reflexivity.
          * destruct IHitems as (e & -> & He). exists e. auto.
        + destruct Hv as (e & -> & He). exists e. auto. }
    destruct (forallb json_serializable items).
    + destruct Hitems as (js & ->). eexists; reflexivity.
    + destruct Hitems as (e & -> & He). exists e. auto.
  - assert (if forallb json_serializable items
            then exists js, mapM_outcome (json_encode h) items = Returned js
            else exists e, mapM_outcome (json_encode h) items = Raised e
                           /\ exn_cls e = TypeError) as Hitems.
    { induction IH as [|v items Hv _ IHitems]; cbn [forallb mapM_outcome].
      - eexists; reflexivity.
      - destruct (json_serializable v); cbn [andb].
        + destruct Hv as (j & ->).
          destruct (forallb json_serializable items).
          * destruct IHitems as (js & ->). eexists; reflexivity.
          * destruct IHitems as (e & -> & He). exists e. auto.
        + destruct Hv as (e & -> & He). exists e. auto. }
    destruct (forallb json_serializable items).
    + destruct Hitems as (js & ->). eexists; reflexivity.
    + destruct Hitems as (e & -> & He). exists e. auto.
  - set (enc := fun kv : pyval * pyval =>
                  match json_key h (fst kv) with
                  | Raised e => Raised e
                  | Returned name =>
                      match json_encode h (snd kv) with
                      | Raised e => Raised e
                      | Returned j => Returned (name, j)
                      end
                  end).
    set (ok := fun kv : pyval * pyval =>
                 json_key_ok (fst kv) && json_serializable (snd kv)).
    assert (if forallb ok entries
            then exists ms, mapM_outcome enc entries = Returned ms
            else exists e, mapM_outcome enc entries = Raised e
                           /\ exn_cls e = TypeError) as Hentries.
    { induction IH as [|[k v] entries [_ Hv] _ IHentries]; cbn [forallb mapM_outcome].
      - eexists; reflexivity.
      - unfold ok at 1, enc at 1 3. cbn [fst snd] in *.
        destruct k as [ |[]| | | | | | | ]; cbn [json_key_ok json_key andb];
          try (eexists; split; reflexivity);
          (destruct (json_serializable v);
           [destruct Hv as (j & ->);
            destruct (forallb ok entries);
            [destruct IHentries as (ms & ->); eexists; reflexivity
            |destruct IHentries as (e & -> & He); exists e; auto]
           |destruct Hv as (e & -> & He); exists e; auto]). }
    destruct (forallb ok entries).
    + destruct Hentries as (ms & ->). eexists; reflexivity.
    + destruct Hentries as (e & -> & He). exists e. auto.
  - eexists. split; reflexivity.
Qed.

Lemma json_encode_list_decides h items :
  if forallb json_serializable items
  then exists js, mapM_outcome (json_encode h) items = Returned js
  else exists e, mapM_outcome (json_encode h) items = Raised e /\ exn_cls e = TypeError.
Proof.
  pose proof (json_encode_decides h (PList items)) as Hl.
  cbn [json_serializable json_encode] in Hl.
  destruct (forallb json_serializable items).
  - destruct Hl as (j & Hj).
    destruct (mapM_outcome (json_encode h) items) as [js|e]; [|discriminate].
    exists js. reflexivity.
  - destruct Hl as (e & He & Hcls).
    destruct (mapM_outcome (json_encode h) items) as [js|e']; [discriminate|].
    injection He as ->. exists e. auto.
Qed.

(** X9. The script changes no file other than public/scene.json, whatever
    the three names are bound to and whatever fails. *)
Theorem merge_json_touches_scene_only h d1 d2 d3 w p :
  p <> scene_path ->
  files (snd (merge_json h d1 d2 d3 w)) !! p = files w !! p.
Proof.
  intros Hp.
  unfold merge_json, concat3, write_scene, list_add, open_w, json_dump, py_len, print,
    write_file, bind, emit, raise, ret.
  fold scene_path.
  destruct (heap w !! d1), (heap w !! d2); cbn [files heap trace fst snd];
    try reflexivity.
  rewrite lookup_insert_eq. destruct (_ !! d3); [|reflexivity].
  cbn [files heap trace fst snd].
  destruct (open_w_fault h scene_path); [reflexivity|].
  cbn [files heap trace fst snd]. rewrite lookup_insert_eq.
  destruct (json_encode h _); cbn [files heap trace fst snd].
  - rewrite lookup_insert_eq. cbn [files snd].
    rewrite !lookup_insert_ne by congruence. reflexivity.
  - apply lookup_insert_ne. congruence.
Qed.

Lemma merge_json_touches_scene_only_witness :
  files (snd (merge_json quiet_host 1%positive 2%positive 3%positive
                (mkWorld {["public/tag25h9-origin.png" := FImage tag]} example_heap [])))
    !! "public/tag25h9-origin.png"
  = files (mkWorld {["public/tag25h9-origin.png" := FImage tag]} example_heap [])
      !! "public/tag25h9-origin.png".
Proof.
  apply (merge_json_touches_scene_only quiet_host 1%positive 2%positive 3%positive
           (mkWorld {["public/tag25h9-origin.png" := FImage tag]} example_heap [])
           "public/tag25h9-origin.png").
  discriminate.
Defined.

(** X11. When a run on three lists fails, the scene file is as it was if
    the file did not open, and is left partial, whatever it held before, if
    an entry is not serializable: the failure is found after the file was
    truncated. *)
Theorem merge_json_failure_leaves h d1 d2 d3 w l1 l2 l3 :
  heap w !! d1 = Some l1 -> heap w !! d2 = Some l2 -> heap w !! d3 = Some l3 ->
  let res := python (merge_json_main h d1 d2 d3) w in
  (forall e, open_w_fault h scene_path = Some e ->
     fst res = 1 /\ files (snd res) = files w)
  /\ (open_w_fault h scene_path = None ->
      forallb json_serializable (l1 ++ l2 ++ l3) = false ->
      fst res = 1 /\ files (snd res) !! scene_path = Some FPartial).
Proof.
  intros H1 H2 H3 res. subst res.
  destruct (merge_json_run h d1 d2 d3 w l1 l2 l3 H1 H2 H3) as (fd & hp' & _ & _ & Hrun).
  unfold python, merge_json_main, bind. rewrite Hrun.
  pose proof (json_encode_list_decides h (l1 ++ l2 ++ l3)) as Hdec.
  split.
  - intros e ->. cbn [fst snd files]. auto.
  - intros -> Hser. rewrite Hser in Hdec. destruct Hdec as (e & -> & _).
    cbn [fst snd files]. split; [reflexivity|apply lookup_insert_eq].
Qed.

Lemma merge_json_failure_leaves_witness :
  let res := python (merge_json_main quiet_host 1%positive 2%positive 3%positive)
               stale_world in
  (forall e, open_w_fault quiet_host scene_path = Some e ->
     fst res = 1 /\ files (snd res) = files stale_world)
  /\ (open_w_fault quiet_host scene_path = None ->
      forallb json_serializable ([PObject "set"] ++ [] ++ []) = false ->
      fst res = 1 /\ files (snd res) !! scene_path = Some FPartial).
Proof.
  apply (merge_json_failure_leaves quiet_host 1%positive 2%positive 3%positive
           stale_world).
  - vm_compute. reflexivity.
  - vm_compute. reflexivity.
  - vm_compute. reflexivity.
Defined.

Lemma mapM_outcome_first_refusal {A B} (f : A -> outcome B) pre x post e :
  (forall y, y ∈ pre -> exists b, f y = Returned b) ->
  f x = Raised e ->
  mapM_outcome f (pre ++ x :: post) = Raised e.
Proof.
  intros Hpre Hx. induction pre as [|y pre IH]; cbn [app mapM_outcome].
  - rewrite Hx. reflexivity.
  - destruct (Hpre y) as (b & ->); [apply list_elem_of_here|].
    rewrite IH; [reflexivity|].
    intros z Hz. apply Hpre. apply list_elem_of_further. exact Hz.
Qed.

(** X12. When the file opens and some entry of the merged list is refused
    by the encoder, the exception that ends the script is the one of the
    first such entry in the order of the merged list. *)
Theorem merge_json_first_refusal h d1 d2 d3 w l1 l2 l3 pre v post e :
  heap w !! d1 = Some l1 -> heap w !! d2 = Some l2 -> heap w !! d3 = Some l3 ->
  open_w_fault h scene_path = None ->
  l1 ++ l2 ++ l3 = pre ++ v :: post ->
  forallb json_serializable pre = true ->
  json_encode h v = Raised e ->
  fst (merge_json h d1 d2 d3 w) = Raised e
  /\ last (trace (snd (python (merge_json_main h d1 d2 d3) w))) = Some (Traceback e).
Proof.
  intros H1 H2 H3 Hof Hsplit Hpre Hv.
  destruct (merge_json_run h d1 d2 d3 w l1 l2 l3 H1 H2 H3) as (fd & hp' & _ & _ & Hrun).
  unfold python, merge_json_main, bind. rewrite Hrun, Hof, Hsplit.
  rewrite (mapM_outcome_first_refusal (json_encode h) pre v post e); [| |exact Hv].
  - cbn [fst snd trace]. split; [reflexivity|]. apply last_snoc.
  - intros y Hy. rewrite forallb_forall in Hpre.
    pose proof (json_encode_decides h y) as Hdec.
    rewrite (Hpre y) in Hdec by (apply list_elem_of_In; exact Hy). exact Hdec.
Qed.

Lemma merge_json_first_refusal_witness :
  fst (merge_json quiet_host 2%positive 1%positive 3%positive mixed_world)
  = Raised (Exn TypeError "Object of type set is not JSON serializable")
  /\ last (trace (snd (python (merge_json_main quiet_host 2%positive 1%positive 3%positive)
                         mixed_world)))
     = Some (Traceback (Exn TypeError "Object of type set is not JSON serializable")).
Proof.
  apply (merge_json_first_refusal quiet_host 2%positive 1%positive 3%positive
           mixed_world
           [PDict [(PStr "id", PInt 2)]] [PObject "set"; PObject "bytes"] []
           [PDict [(PStr "id", PInt 2)]] (PObject "set") [PObject "bytes"]).
  - vm_compute. reflexivity.
  - vm_compute. reflexivity.
  - vm_compute. reflexivity.
  - vm_compute. reflexivity.
  - vm_compute. reflexivity.
  - vm_compute. reflexivity.
  - vm_compute. reflexivity.
Defined.

(** * The size and the ratio against the numbers *)


(** ** Digits, exponents and the steps of rounding *)

Lemma Zdigits2_nonneg x : 0 <= Zdigits2 x.
Proof. destruct x; cbn [Zdigits2]; lia. Qed.

Lemma Zdigits2_upper x : 0 <= x -> x < 2 ^ Zdigits2 x.
Proof.
  destruct x as [|p|p]; try lia; intros _; cbn [Zdigits2].
  - cbn. lia.
  - apply digits2_pos_bounds.
Qed.

Lemma Zdigits2_lower x : 0 < x -> 2 ^ (Zdigits2 x - 1) <= x.
Proof.
  destruct x as [|p|p]; try lia; intros _; cbn [Zdigits2]. apply digits2_pos_bounds.
Qed.

Lemma Zdigits2_le x d : 0 <= d -> 0 <= x < 2 ^ d -> Zdigits2 x <= d.
Proof.
  intros Hd [Hx Hlt]. destruct (Z.eq_dec x 0) as [->|Hne]; [cbn; lia|].
  pose proof (Zdigits2_lower x ltac:(lia)) as Hlo.
  pose proof (Zdigits2_nonneg x).
  destruct (Z_le_gt_dec (Zdigits2 x) d) as [|Hgt]; [assumption|].
  assert (2 ^ d <= 2 ^ (Zdigits2 x - 1)) by (apply Z.pow_le_mono_r; lia). lia.
Qed.

Lemma Zdigits2_ge x d : 2 ^ (d - 1) <= x -> 0 < x -> d <= Zdigits2 x.
Proof.
  intros Hlo Hx. pose proof (Zdigits2_upper x ltac:(lia)) as Hup.
  pose proof (Zdigits2_nonneg x).
  destruct (Z_le_gt_dec d (Zdigits2 x)) as [|Hgt]; [assumption|].
  assert (2 ^ Zdigits2 x <= 2 ^ (d - 1)) by (apply Z.pow_le_mono_r; lia). lia.
Qed.

Lemma Zdigits2_div x k :
  0 <= x -> 0 <= k -> Zdigits2 (x / 2 ^ k) <= Z.max (Zdigits2 x - k) 0.
Proof.
  intros Hx Hk. pose proof (Zdigits2_upper x Hx) as Hup.
  pose proof (Zdigits2_nonneg x) as Hd.
  assert (0 < 2 ^ k) by (apply Z.pow_pos_nonneg; lia).
  destruct (Z_le_gt_dec k (Zdigits2 x)) as [Hle|Hgt].
  - rewrite Z.max_l by lia. apply Zdigits2_le; [lia|]. split.
    + apply Z.div_pos; lia.
    + apply Z.div_lt_upper_bound; [lia|].
      rewrite <- Z.pow_add_r by lia. replace (k + (Zdigits2 x - k)) with (Zdigits2 x) by lia.
      exact Hup.
  - rewrite Z.div_small; [cbn; lia|]. split; [lia|].
    assert (2 ^ Zdigits2 x <= 2 ^ k) by (apply Z.pow_le_mono_r; lia). lia.
Qed.

Lemma Zdigits2_succ x :
  0 <= x ->
  Zdigits2 (x + 1) <= Zdigits2 x
  \/ (Zdigits2 (x + 1) <= Zdigits2 x + 1 /\ x + 1 = 2 ^ Zdigits2 x).
Proof.
  intros Hx. pose proof (Zdigits2_upper x Hx) as Hup.
  pose proof (Zdigits2_nonneg x) as Hd.
  destruct (Z.eq_dec (x + 1) (2 ^ Zdigits2 x)) as [Heq|Hne].
  - right. split; [|exact Heq]. apply Zdigits2_le; [lia|]. split; [lia|].
    rewrite Heq. apply Z.pow_lt_mono_r; lia.
  - left. apply Zdigits2_le; [lia|]. lia.
Qed.

Lemma fexp_mono a b : a <= b -> fexp prec emax a <= fexp prec emax b.
Proof. unfold fexp. lia. Qed.

Lemma fexp_succ a : fexp prec emax (a + 1) <= fexp prec emax a + 1.
Proof. unfold fexp. lia. Qed.

Lemma fexp_ge_emin a : emin prec emax <= fexp prec emax a.
Proof. unfold fexp. lia. Qed.

Lemma shr_1_div2 mrs : 0 <= shr_m mrs -> shr_m (shr_1 mrs) = shr_m mrs / 2.
Proof.
  destruct mrs as [m r s]. cbn [shr_m]. intros Hm. rewrite <- Z.div2_div.
  destruct m as [|[p|p|]|p]; try lia; reflexivity.
Qed.

Lemma shr_iter_div mrs k :
  0 <= shr_m mrs ->
  shr_m (SpecFloat.iter_pos shr_1 k mrs) = shr_m mrs / 2 ^ Zpos k.
Proof.
  intros Hm. rewrite iter_pos_iter. induction k as [|k IH] using Pos.peano_ind.
  - cbn [Pos.iter]. rewrite shr_1_div2 by exact Hm. reflexivity.
  - rewrite Pos.iter_succ, shr_1_div2.
    + rewrite IH, Pos2Z.inj_succ, Z.pow_succ_r by lia.
      rewrite Z.div_div by (try apply Z.pow_pos_nonneg; lia).
      rewrite (Z.mul_comm 2). reflexivity.
    + rewrite IH. apply Z.div_pos; [lia|]. apply Z.pow_pos_nonneg; lia.
Qed.

Lemma shr_record_of_loc_m m l : shr_m (shr_record_of_loc m l) = m.
Proof. destruct l as [|[]]; reflexivity. Qed.

(** The first step of rounding: the mantissa is cut at the exponent the
    format asks for. *)
Lemma shr_fexp_cut m e l :
  0 <= m ->
  let E := Z.max e (fexp prec emax (Zdigits2 m + e)) in
  snd (shr_fexp prec emax m e l) = E
  /\ shr_m (fst (shr_fexp prec emax m e l)) = m / 2 ^ (E - e).
Proof.
  intros Hm E. subst E. unfold shr_fexp, shr.
  destruct (fexp prec emax (Zdigits2 m + e) - e) as [|k|k] eqn:Hk; cbn [fst snd].
  - rewrite Z.max_l by lia. rewrite Z.sub_diag, Z.pow_0_r, Z.div_1_r.
    split; [reflexivity|apply shr_record_of_loc_m].
  - rewrite Z.max_r by lia. split; [lia|].
    rewrite shr_iter_div by (rewrite shr_record_of_loc_m; exact Hm).
    rewrite shr_record_of_loc_m. f_equal. f_equal. lia.
  - rewrite Z.max_l by lia. rewrite Z.sub_diag, Z.pow_0_r, Z.div_1_r.
    split; [reflexivity|apply shr_record_of_loc_m].
Qed.

Lemma round_nearest_even_step x l :
  round_nearest_even x l = x \/ round_nearest_even x l = x + 1.
Proof.
  destruct l as [|[]]; cbn [round_nearest_even]; auto.
  destruct (Z.even x); auto.
Qed.

(** Rounding, step by step: with [Q] the mantissa cut at the exponent [E]
    of the format and [m1] the integer that rounding to nearest chooses for
    it, the result has mantissa [m1] at [E], or half of it at the next
    exponent when [m1] has one bit too many. *)
Lemma binary_round_aux_rounded s m e l :
  0 <= m ->
  let E := Z.max e (fexp prec emax (Zdigits2 m + e)) in
  let Q := m / 2 ^ (E - e) in
  let m1 := round_nearest_even Q (loc_of_shr_record (fst (shr_fexp prec emax m e l))) in
  match binary_round_aux prec emax s m e l with
  | S754_zero s' => s' = s /\ m1 = 0
  | S754_infinity s' => s' = s /\ emax - prec <= E
  | S754_nan => False
  | S754_finite s' m2 e2 =>
      s' = s /\ e2 <= emax - prec
      /\ e2 = Z.max E (fexp prec emax (Zdigits2 m1 + E))
      /\ ((e2 = E /\ Zpos m2 = m1) \/ (e2 = E + 1 /\ m1 = Q + 1 /\ 2 * Zpos m2 = m1))
  end.
Proof.
  intros Hm E Q m1.
  assert (0 <= E - e) as HEe by (subst E; lia).
  assert (0 <= Q) as HQ by (subst Q; apply Z.div_pos; [lia|apply Z.pow_pos_nonneg; lia]).
  assert (fexp prec emax (Zdigits2 Q + E) <= E) as HF1.
  { destruct (Z.eq_dec E e) as [HE|HE].
    - subst Q. rewrite HE, Z.sub_diag, Z.pow_0_r, Z.div_1_r. subst E. lia.
    - pose proof (Zdigits2_div m (E - e) Hm HEe) as Hdq. fold Q in Hdq.
      assert (E = fexp prec emax (Zdigits2 m + e)) as HEf by (subst E; lia).
      pose proof (fexp_ge_emin (Zdigits2 m + e)).
      destruct (Z.max_spec (Zdigits2 m - (E - e)) 0) as [[_ Hmax]|[_ Hmax]];
        rewrite Hmax in Hdq.
      + etransitivity; [apply (fexp_mono _ E); lia|].
        unfold fexp, prec in *. lia.
      + etransitivity; [apply (fexp_mono _ (Zdigits2 m + e)); lia|]. lia. }
  unfold binary_round_aux.
  pose proof (shr_fexp_cut m e l Hm) as [He1 Hm1]. fold E in He1, Hm1. fold Q in Hm1.
  subst m1.
  destruct (shr_fexp prec emax m e l) as [mrs1 e1]. cbn [fst snd] in *. subst e1.
  rewrite Hm1.
  set (m1 := round_nearest_even Q (loc_of_shr_record mrs1)).
  assert (m1 = Q \/ m1 = Q + 1) as Hm1' by apply round_nearest_even_step.
  assert (0 <= m1) as Hm1pos by lia.
  pose proof (shr_fexp_cut m1 E loc_Exact Hm1pos) as [He2 Hm2].
  destruct (shr_fexp prec emax m1 E loc_Exact) as [mrs2 e2]. cbn [fst snd] in He2, Hm2.
  rewrite <- He2 in Hm2.
  assert ((e2 = E /\ shr_m mrs2 = m1)
          \/ (e2 = E + 1 /\ m1 = Q + 1 /\ 2 * shr_m mrs2 = m1)) as Hcases.
  { assert (Zdigits2 m1 <= Zdigits2 Q
            \/ (Zdigits2 m1 <= Zdigits2 Q + 1 /\ m1 = Q + 1 /\ Q + 1 = 2 ^ Zdigits2 Q))
      as Hd.
    { destruct Hm1' as [->| ->]; [left; lia|].
      destruct (Zdigits2_succ Q HQ) as [|[? ?]]; [left; assumption|right; auto]. }
    destruct Hd as [Hd|(Hd & Hq1 & Hpow)].
    - left. assert (fexp prec emax (Zdigits2 m1 + E) <= E)
        by (etransitivity; [apply (fexp_mono _ (Zdigits2 Q + E)); lia|exact HF1]).
      assert (e2 = E) by lia. split; [assumption|].
      rewrite Hm2. replace (e2 - E) with 0 by lia. rewrite Z.pow_0_r. apply Z.div_1_r.
    - assert (fexp prec emax (Zdigits2 m1 + E) <= E + 1).
      { etransitivity; [apply (fexp_mono _ (Zdigits2 Q + E + 1)); lia|].
        etransitivity; [apply fexp_succ|]. lia. }
      destruct (Z.eq_dec e2 E) as [HeE|HeE].
      + left. split; [assumption|].
        rewrite Hm2. replace (e2 - E) with 0 by lia. rewrite Z.pow_0_r. apply Z.div_1_r.
      + right. assert (e2 = E + 1) as He2' by lia. split; [assumption|].
        split; [assumption|].
        assert (Zdigits2 Q = 53) as HdQ.
        { pose proof (fexp_ge_emin (Zdigits2 m + e)).
          assert (emin prec emax <= E) by (subst E; lia).
          assert (fexp prec emax (Zdigits2 m1 + E) = E + 1) as Hfe by lia.
          unfold fexp, prec in Hfe, HF1. unfold prec in *. lia. }
        rewrite Hm2, Hq1, Hpow, HdQ. replace (e2 - E) with 1 by lia. reflexivity. }
  destruct (shr_m mrs2) as [|p|p] eqn:Hmrs2.
  - split; [reflexivity|]. destruct Hcases as [(_ & Hz)|(_ & _ & Hz)]; lia.
  - destruct (e2 <=? emax - prec) eqn:Hle.
    + split; [reflexivity|]. apply Z.leb_le in Hle. split; [exact Hle|].
      split; [exact He2|]. destruct Hcases as [(-> & Hz)|(-> & Hq1 & Hz)].
      * left. split; [reflexivity|]. lia.
      * right. split; [reflexivity|]. split; [exact Hq1|lia].
    + split; [reflexivity|]. apply Z.leb_gt in Hle.
      destruct Hcases as [(-> & _)|(-> & _ & _)]; lia.
  - destruct Hcases as [(_ & Hz)|(_ & _ & Hz)]; lia.
Qed.

(** Rounding gives one of the two neighbours of the number at the exponent
    [E] of the format: with [Q] the mantissa cut at [E], the result has
    mantissa [Q] or [Q + 1] at [E], the latter also in the form of the next
    exponent when it is a power of two. *)
Lemma binary_round_aux_neighbours s m e l :
  0 <= m ->
  let E := Z.max e (fexp prec emax (Zdigits2 m + e)) in
  let Q := m / 2 ^ (E - e) in
  match binary_round_aux prec emax s m e l with
  | S754_zero s' => s' = s /\ Q = 0
  | S754_infinity s' => s' = s /\ emax - prec <= E
  | S754_nan => False
  | S754_finite s' m2 e2 =>
      s' = s
      /\ ((e2 = E /\ (Zpos m2 = Q \/ Zpos m2 = Q + 1))
          \/ (e2 = E + 1 /\ 2 * Zpos m2 = Q + 1))
  end.
Proof.
  intros Hm E Q. pose proof (binary_round_aux_rounded s m e l Hm) as Hr.
  cbv zeta in Hr. fold E in Hr. fold Q in Hr.
  assert (0 <= Q) as HQ
    by (subst Q; apply Z.div_pos; [lia|apply Z.pow_pos_nonneg; subst E; lia]).
  pose proof (round_nearest_even_step Q
                (loc_of_shr_record (fst (shr_fexp prec emax m e l)))) as Hstep.
  destruct (binary_round_aux prec emax s m e l) as [s'|s'| |s' m2 e2].
  - destruct Hr as [-> Hz]. split; [reflexivity|]. lia.
  - exact Hr.
  - exact Hr.
  - destruct Hr as (-> & _ & _ & [(-> & Hm2)|(-> & Hq & Hm2)]).
    + split; [reflexivity|]. left. split; [reflexivity|]. lia.
    + split; [reflexivity|]. right. split; [reflexivity|]. lia.
Qed.

(** ** The border between two integers *)


Lemma Qfloor_shiftl (a e : Z) :
  Qfloor (inject_Z a * Qpower 2 e)%Q = Z.shiftl a e.
Proof.
  destruct e as [|p|p].
  - rewrite Z.shiftl_0_r. change (Qpower 2 0) with 1%Q.
    rewrite Qmult_1_r. apply Qfloor_Z.
  - rewrite Z.shiftl_mul_pow2 by lia.
    change 2%Q with (inject_Z 2).
    rewrite <- (Zpower_Qpower 2 (Zpos p)) by lia.
    rewrite <- inject_Z_mult. apply Qfloor_Z.
  - change (Zneg p) with (- Zpos p). rewrite Z.shiftl_opp_r, Z.shiftr_div_pow2 by lia.
    change 2%Q with (inject_Z 2).
    rewrite Qpower_opp, <- (Zpower_Qpower 2 (Zpos p)) by lia.
    rewrite Zdiv_Qdiv. reflexivity.
Qed.

Lemma shiftl_nonpos a e : e <= 0 -> Z.shiftl a e = a / 2 ^ (- e).
Proof.
  intros He. replace e with (- - e) at 1 by lia.
  rewrite Z.shiftl_opp_r. apply Z.shiftr_div_pow2. lia.
Qed.

(** The floor of a number cut at an exponent [E <= 0]: from the neighbours
    [Q] and [Q + 1] of the number one gets the floor or the next integer. *)
Lemma floor_of_neighbours mx ex E m2 e2 :
  0 <= mx -> ex <= E -> E <= 0 ->
  (e2 = E /\ (m2 = mx / 2 ^ (E - ex) \/ m2 = mx / 2 ^ (E - ex) + 1))
  \/ (e2 = E + 1 /\ 2 * m2 = mx / 2 ^ (E - ex) + 1) ->
  Z.shiftl m2 e2 = Z.shiftl mx ex \/ Z.shiftl m2 e2 = Z.shiftl mx ex + 1.
Proof.
  intros Hmx HexE HE Hcases.
  set (Q := mx / 2 ^ (E - ex)) in *.
  set (j := - E).
  assert (0 < 2 ^ j) as Hj by (apply Z.pow_pos_nonneg; lia).
  assert (0 < 2 ^ (E - ex)) as Hk by (apply Z.pow_pos_nonneg; lia).
  assert (Z.shiftl mx ex = Q / 2 ^ j) as Hn.
  { rewrite shiftl_nonpos by lia. subst Q. rewrite Z.div_div by lia.
    rewrite <- Z.pow_add_r by lia. f_equal. f_equal. lia. }
  pose proof (Z.div_mod Q (2 ^ j) ltac:(lia)) as Hdm.
  pose proof (Z.mod_pos_bound Q (2 ^ j) Hj) as Hmod.
  set (n := Q / 2 ^ j) in *.
  assert ((Q + 1) / 2 ^ j = n \/ (Q + 1) / 2 ^ j = n + 1) as Hup.
  { assert (n <= (Q + 1) / 2 ^ j) by (apply Z.div_le_lower_bound; lia).
    assert ((Q + 1) / 2 ^ j <= n + 1) by (apply Z.div_le_upper_bound; lia). lia. }
  rewrite Hn.
  destruct Hcases as [(-> & [-> | ->])|(-> & H2)].
  - left. rewrite shiftl_nonpos by lia. reflexivity.
  - rewrite shiftl_nonpos by lia. exact Hup.
  - destruct (Z.eq_dec E 0) as [HE0|HE0].
    + right. rewrite HE0. change (0 + 1) with 1. rewrite Z.shiftl_mul_pow2 by lia.
      assert (j = 0) as Hj0 by (subst j; lia).
      subst n. rewrite Hj0, Z.pow_0_r, Z.div_1_r. lia.
    + rewrite shiftl_nonpos by lia.
      replace (m2 / 2 ^ (- (E + 1))) with ((Q + 1) / 2 ^ j); [exact Hup|].
      rewrite <- H2. replace j with (1 + (- (E + 1))) by (subst j; lia).
      rewrite Z.pow_add_r by lia. rewrite Z.pow_1_r.
      apply Z.div_mul_cancel_l; try lia.
Qed.

(** The border the script computes against the product of the numbers: for
    a ratio r >= 0 and a side below 2^53 whose product is below 2^53, it is
    the floor of the product or, for a float ratio, the next integer. *)
Lemma border_bracket n r k :
  0 < n < 2 ^ 53 -> py_ge0 r = true ->
  exact_floor_mul n r = Some k -> k < 2 ^ 53 ->
  exists b, outcome_bind (int_mul n r) py_int = Returned b
            /\ (b = k \/ (b = k + 1 /\ exists x, r = PyFloat x)).
Proof.
  intros Hn Hr Hk Hk53. unfold exact_floor_mul in Hk.
  destruct r as [z|[s|s| |s mr er]]; cbn [py_finite pynum2Q SF2Q py_ge0] in *;
    try discriminate.
  - assert (Qfloor (inject_Z n * inject_Z z)%Q = k) as Hk' by congruence.
    rewrite <- inject_Z_mult, Qfloor_Z in Hk'. subst k.
    exists (n * z). cbn [int_mul outcome_bind py_int]. auto.
  - assert (Qfloor (inject_Z n * 0)%Q = k) as Hk' by congruence.
    rewrite (Qfloor_comp _ (inject_Z 0)) in Hk' by ring. rewrite Qfloor_Z in Hk'. subst k.
    destruct (int_to_float_exact n Hn) as (mw & kw & Hf & _).
    cbn [int_mul]. rewrite Hf. cbn [outcome_bind SFmul py_int].
    exists 0. split; [reflexivity|]. left. reflexivity.
  - destruct s; [discriminate|]. cbn [cond_Zopp] in Hk.
    assert (Qfloor (inject_Z n * (inject_Z (Z.pos mr) * Qpower 2 er))%Q = k) as Hk'
      by congruence.
    clear Hk.
    destruct (int_to_float_exact n Hn) as (mw & kw & Hf & Hkw & Hmw & Hdw).
    cbn [int_mul]. rewrite Hf. cbn [outcome_bind SFmul xorb].
    assert (Qfloor (inject_Z n * (inject_Z (Z.pos mr) * Qpower 2 er))%Q
            = Z.shiftl (Zpos (mw * mr)) (- kw + er)) as Hfloor.
    { rewrite <- Qfloor_shiftl. rewrite Qmult_assoc, <- inject_Z_mult.
      rewrite Qfloor_shiftl, Qfloor_shiftl.
      rewrite Pos2Z.inj_mul, Hmw.
      replace (n * 2 ^ kw * Z.pos mr) with (n * Z.pos mr * 2 ^ kw) by ring.
      rewrite <- Z.shiftl_mul_pow2 by lia.
      rewrite Z.shiftl_shiftl by lia. f_equal. lia. }
    rewrite Hfloor in Hk'. subst k. clear Hfloor.
    set (mx := Zpos (mw * mr)) in *. set (ex := - kw + er) in *.
    assert (2 ^ 52 <= mx) as Hmx52.
    { subst mx. rewrite Pos2Z.inj_mul.
      pose proof (digits2_pos_bounds mw) as [Hlo _]. rewrite Hdw in Hlo.
      change (53 - 1) with 52 in Hlo. nia. }
    assert (ex <= 0) as Hex.
    { destruct (Z_le_gt_dec ex 0) as [|Hgt]; [assumption|]. exfalso.
      rewrite Z.shiftl_mul_pow2 in Hk53 by lia.
      assert (2 ^ 1 <= 2 ^ ex) by (apply Z.pow_le_mono_r; lia).
      change (2 ^ 1) with 2 in *. change (2 ^ 53) with (2 ^ 52 * 2) in Hk53. nia. }
    assert (Zdigits2 mx + ex <= 53) as Hd.
    { destruct (Z_le_gt_dec (Zdigits2 mx + ex) 53) as [|Hgt]; [assumption|]. exfalso.
      pose proof (Zdigits2_lower mx ltac:(lia)) as Hlo.
      rewrite shiftl_nonpos in Hk53 by lia.
      assert (2 ^ 53 <= mx / 2 ^ (- ex)); [|lia].
      apply Z.div_le_lower_bound; [apply Z.pow_pos_nonneg; lia|].
      rewrite <- Z.pow_add_r by lia.
      etransitivity; [|exact Hlo]. apply Z.pow_le_mono_r; lia. }
    pose proof (binary_round_aux_neighbours false mx ex loc_Exact ltac:(lia)) as Hround.
    cbv zeta in Hround.
    set (E := Z.max ex (fexp prec emax (Zdigits2 mx + ex))) in *.
    assert (ex <= E) as HexE by (subst E; lia).
    assert (E <= 0) as HE0 by (subst E; unfold fexp, emin, prec, emax; lia).
    destruct (binary_round_aux prec emax false mx ex loc_Exact) as [s'|s'| |s' m2 e2].
    + destruct Hround as [_ HQ]. exists 0. cbn [py_int]. split; [reflexivity|].
      left. rewrite shiftl_nonpos by lia.
      assert (0 < 2 ^ (E - ex)) by (apply Z.pow_pos_nonneg; lia).
      assert (0 < 2 ^ (- E)) by (apply Z.pow_pos_nonneg; lia).
      replace (- ex) with ((E - ex) + (- E)) by lia.
      rewrite Z.pow_add_r, <- Z.div_div, HQ by lia. reflexivity.
    + destruct Hround as [_ Hinf]. unfold prec, emax in Hinf. lia.
    + contradiction.
    + destruct Hround as [-> Hcases]. cbn [py_int cond_Zopp].
      exists (Z.shiftl (Zpos m2) e2). split; [reflexivity|].
      destruct (floor_of_neighbours mx ex E (Zpos m2) e2 ltac:(lia) HexE HE0 Hcases)
        as [->| ->]; eauto.
Qed.

Lemma inject_Z_pos z : 0 < z -> (0 < inject_Z z)%Q.
Proof. intros Hz. change 0%Q with (inject_Z 0). rewrite <- Zlt_Qlt. exact Hz. Qed.

(** ** Rounding to nearest *)

Lemma Zdigits2_mono x y : 0 <= x <= y -> Zdigits2 x <= Zdigits2 y.
Proof.
  intros [Hx Hxy]. apply Zdigits2_le; [apply Zdigits2_nonneg|].
  pose proof (Zdigits2_upper y ltac:(lia)). lia.
Qed.

Lemma Zdigits2_div_pow x k :
  0 <= k -> 0 < x / 2 ^ k -> Zdigits2 (x / 2 ^ k) = Zdigits2 x - k.
Proof.
  intros Hk Hq.
  assert (0 < 2 ^ k) as H2k by (apply Z.pow_pos_nonneg; lia).
  assert (0 < x) as Hx.
  { destruct (Z_lt_le_dec 0 x) as [|Hle]; [assumption|exfalso].
    assert (x / 2 ^ k <= 0) by (apply Z.div_le_upper_bound; lia). lia. }
  assert (2 ^ k <= x) as Hkx.
  { destruct (Z_le_gt_dec (2 ^ k) x) as [|Hgt]; [assumption|exfalso].
    rewrite Z.div_small in Hq by lia. lia. }
  pose proof (Zdigits2_lower x Hx) as Hlo. pose proof (Zdigits2_upper x ltac:(lia)) as Hup.
  pose proof (Zdigits2_nonneg x) as Hd.
  assert (k < Zdigits2 x) as Hkd.
  { destruct (Z_lt_le_dec k (Zdigits2 x)) as [|Hle]; [assumption|exfalso].
    assert (2 ^ Zdigits2 x <= 2 ^ k) by (apply Z.pow_le_mono_r; lia). lia. }
  apply Z.le_antisymm.
  - pose proof (Zdigits2_div x k ltac:(lia) Hk). lia.
  - apply Zdigits2_ge; [|exact Hq].
    apply Z.div_le_lower_bound; [exact H2k|].
    rewrite <- Z.pow_add_r by lia.
    replace (k + (Zdigits2 x - k - 1)) with (Zdigits2 x - 1) by lia. exact Hlo.
Qed.

Lemma Zdigits2_double x : 0 < x -> Zdigits2 (2 * x) = Zdigits2 x + 1.
Proof.
  destruct x as [|p|p]; try lia. intros _.
  change (2 * Zpos p) with (Zpos (xO p)). cbn [Zdigits2 digits2_pos]. lia.
Qed.

(** *** The position of the bits that are shifted out *)

Ltac decide_located :=
  unfold located in *;
  repeat match goal with
         | H : context [?a =? ?b] |- _ => destruct (Z.eqb_spec a b)
         | |- context [?a =? ?b] => destruct (Z.eqb_spec a b)
         | H : context [?a ?= ?b] |- _ => destruct (Z.compare_spec a b)
         | |- context [?a ?= ?b] => destruct (Z.compare_spec a b)
         end;
  try discriminate; try reflexivity; try (exfalso; lia).

Lemma shr_1_located mrs R D :
  0 <= shr_m mrs -> 0 < D -> 0 <= R < D ->
  located (loc_of_shr_record mrs) R D ->
  located (loc_of_shr_record (shr_1 mrs)) (R + Z.b2z (Z.odd (shr_m mrs)) * D) (2 * D).
Proof.
  destruct mrs as [m r s]. cbn [shr_m]. intros Hm HD HR Hloc.
  destruct m as [|[p|p|]|p]; try lia;
    cbn [shr_1 Z.odd Z.b2z]; rewrite ?Z.mul_0_l, ?Z.mul_1_l, ?Z.add_0_r;
    destruct r, s; cbn [orb loc_of_shr_record] in *; decide_located.
Qed.

Lemma shr_iter_located k mrs R D :
  0 <= shr_m mrs -> 0 < D -> 0 <= R < D ->
  located (loc_of_shr_record mrs) R D ->
  located (loc_of_shr_record (SpecFloat.iter_pos shr_1 k mrs))
    (R + (shr_m mrs mod 2 ^ Zpos k) * D) (2 ^ Zpos k * D).
Proof.
  intros Hm HD HR Hloc. rewrite iter_pos_iter.
  assert (forall j, 0 <= shr_m mrs mod 2 ^ Zpos j < 2 ^ Zpos j) as Hmod
    by (intros j; apply Z.mod_pos_bound, Z.pow_pos_nonneg; lia).
  induction k as [|k IH] using Pos.peano_ind.
  - cbn [Pos.iter]. change (2 ^ 1) with 2.
    replace (shr_m mrs mod 2) with (Z.b2z (Z.odd (shr_m mrs)))
      by (rewrite Zmod_odd; destruct (Z.odd (shr_m mrs)); reflexivity).
    apply shr_1_located; assumption.
  - rewrite Pos.iter_succ.
    pose proof (shr_iter_div mrs k Hm) as Hdiv. rewrite iter_pos_iter in Hdiv.
    assert (0 < 2 ^ Zpos k) as H2k by (apply Z.pow_pos_nonneg; lia).
    pose proof (Hmod k) as Hmk.
    pose proof (shr_1_located (Pos.iter shr_1 mrs k)
                  (R + shr_m mrs mod 2 ^ Zpos k * D) (2 ^ Zpos k * D)) as Hstep.
    rewrite Hdiv in Hstep.
    replace (R + shr_m mrs mod 2 ^ Zpos (Pos.succ k) * D)
      with (R + shr_m mrs mod 2 ^ Zpos k * D
            + Z.b2z (Z.odd (shr_m mrs / 2 ^ Zpos k)) * (2 ^ Zpos k * D)).
    + replace (2 ^ Zpos (Pos.succ k) * D) with (2 * (2 ^ Zpos k * D))
        by (rewrite Pos2Z.inj_succ, Z.pow_succ_r by lia; ring).
      apply Hstep; [apply Z.div_pos; lia|nia|nia|exact IH].
    + rewrite Pos2Z.inj_succ, Z.pow_succ_r by lia.
      rewrite (Z.mul_comm 2), Z.rem_mul_r by lia.
      rewrite (Zmod_odd (shr_m mrs / 2 ^ Zpos k)).
      destruct (Z.odd (shr_m mrs / 2 ^ Zpos k)); cbn [Z.b2z]; ring.
Qed.

Lemma loc_of_shr_record_of_loc m l : loc_of_shr_record (shr_record_of_loc m l) = l.
Proof. destruct l as [|[]]; reflexivity. Qed.

(** The first step of rounding keeps track of what is cut off: the
    position of the remainder in the new unit. *)
Lemma shr_fexp_located m e l R D :
  0 <= m -> 0 < D -> 0 <= R < D -> located l R D ->
  let E := Z.max e (fexp prec emax (Zdigits2 m + e)) in
  located (loc_of_shr_record (fst (shr_fexp prec emax m e l)))
    (R + (m mod 2 ^ (E - e)) * D) (2 ^ (E - e) * D).
Proof.
  intros Hm HD HR Hloc E. subst E. unfold shr_fexp, shr.
  destruct (fexp prec emax (Zdigits2 m + e) - e) as [|k|k] eqn:Hk; cbn [fst snd].
  - rewrite Z.max_l by lia. rewrite Z.sub_diag, Z.pow_0_r, Z.mod_1_r.
    rewrite loc_of_shr_record_of_loc. replace (R + 0 * D) with R by ring.
    replace (1 * D) with D by ring. exact Hloc.
  - rewrite Z.max_r by lia.
    replace (fexp prec emax (Zdigits2 m + e) - e) with (Zpos k) by lia.
    pose proof (shr_iter_located k (shr_record_of_loc m l) R D) as Hit.
    rewrite shr_record_of_loc_m, loc_of_shr_record_of_loc in Hit.
    apply Hit; assumption.
  - rewrite Z.max_l by lia. rewrite Z.sub_diag, Z.pow_0_r, Z.mod_1_r.
    rewrite loc_of_shr_record_of_loc. replace (R + 0 * D) with R by ring.
    replace (1 * D) with D by ring. exact Hloc.
Qed.

(** Rounding to nearest, ties to even, on a located fraction: the integer
    chosen is at most half a unit away. *)
Lemma round_nearest_even_located Q l R D :
  0 < D -> 0 <= R < D -> located l R D ->
  let K := round_nearest_even Q l in
  (K = Q \/ K = Q + 1) /\ 2 * Z.abs (K * D - (Q * D + R)) <= D.
Proof.
  intros HD HR Hloc K. subst K. split; [apply round_nearest_even_step|].
  unfold located in Hloc. subst l.
  destruct (Z.eqb_spec R 0) as [->|HR0]; cbn [round_nearest_even]; [lia|].
  destruct (Z.compare_spec (2 * R) D); [destruct (Z.even Q)| |]; lia.
Qed.


(** *** Rounding is to nearest *)

(** The number [(m + R / D) * 2^e], of at least as many bits as the format
    keeps, is rounded to a float of the format, [K * 2^E] with the integer
    [K] at most half a unit away from the number counted in units of [2^E].
    Below, [N / D'] is the number in these units. *)
Lemma binary_round_aux_nearest s m e l R D :
  0 < m -> e <= fexp prec emax (Zdigits2 m + e) ->
  0 < D -> 0 <= R < D -> located l R D ->
  let E := fexp prec emax (Zdigits2 m + e) in
  let D' := 2 ^ (E - e) * D in
  let N := m * D + R in
  match binary_round_aux prec emax s m e l with
  | S754_zero s' => s' = s /\ E = emin prec emax /\ 2 * N <= D'
  | S754_infinity s' => s' = s /\ emax - prec <= E
  | S754_nan => False
  | S754_finite s' m2 e2 =>
      s' = s /\ bounded prec emax m2 e2 = true /\ E <= e2
      /\ 2 * Z.abs (Zpos m2 * 2 ^ (e2 - E) * D' - N) <= D'
      /\ (E = emin prec emax \/ 2 ^ 52 * D' <= N)
  end.
Proof.
  intros Hm He HD HR Hloc E D' N.
  pose proof (binary_round_aux_rounded s m e l ltac:(lia)) as Hr. cbv zeta in Hr.
  pose proof (shr_fexp_located m e l R D ltac:(lia) HD HR Hloc) as Hloc1.
  cbv zeta in Hloc1.
  replace (Z.max e (fexp prec emax (Zdigits2 m + e))) with E in Hr, Hloc1
    by (subst E; lia).
  set (k := E - e) in *. assert (0 <= k) as Hk by (subst k E; lia).
  assert (0 < 2 ^ k) as H2k by (apply Z.pow_pos_nonneg; lia).
  set (Q := m / 2 ^ k) in *.
  set (R' := R + m mod 2 ^ k * D) in *.
  fold D' in Hloc1.
  pose proof (Z.div_mod m (2 ^ k) ltac:(lia)) as Hdm. fold Q in Hdm.
  pose proof (Z.mod_pos_bound m (2 ^ k) H2k) as Hmod.
  assert (0 < D') as HD' by (subst D'; nia).
  assert (0 <= R' < D') as HR' by (subst R' D'; nia).
  assert (Q * D' + R' = N) as HN by (subst R' D' N; nia).
  assert (0 <= Q) as HQ by (subst Q; apply Z.div_pos; lia).
  set (loc1 := loc_of_shr_record (fst (shr_fexp prec emax m e l))) in *.
  destruct (round_nearest_even_located Q loc1 R' D' HD' HR' Hloc1) as [Hstep Hnear].
  cbv zeta in Hstep, Hnear. rewrite HN in Hnear.
  set (m1 := round_nearest_even Q loc1) in *.
  pose proof (Zdigits2_lower m Hm) as Hmlo.
  pose proof (Zdigits2_upper m ltac:(lia)) as Hmup.
  assert (E = emin prec emax \/ 2 ^ 52 * D' <= N) as Hgrid.
  { destruct (Z.eq_dec E (emin prec emax)) as [|Hne]; [left; assumption|right].
    assert (k = Zdigits2 m - 53) as Hk53
      by (subst k E; unfold fexp, emin, prec, emax in *; lia).
    assert (2 ^ 52 * 2 ^ k <= m).
    { rewrite <- Z.pow_add_r by lia. etransitivity; [|exact Hmlo].
      apply Z.pow_le_mono_r; lia. }
    subst D' N. nia. }
  assert (Q = 0 -> E = emin prec emax) as HQ0.
  { intros HQz. assert (m < 2 ^ k) as Hmk by nia.
    assert (Zdigits2 m <= k) as Hdk.
    { destruct (Z_le_gt_dec (Zdigits2 m) k) as [|Hgt]; [assumption|exfalso].
      assert (2 ^ k <= 2 ^ (Zdigits2 m - 1)) by (apply Z.pow_le_mono_r; lia). lia. }
    subst k E. unfold fexp, emin, prec, emax in *. lia. }
  assert (0 < Q -> fexp prec emax (Zdigits2 Q + E) = E) as HQpos.
  { intros HQp. subst Q. rewrite Zdigits2_div_pow by lia.
    subst k. replace (Zdigits2 m - (E - e) + E) with (Zdigits2 m + e) by lia.
    reflexivity. }
  assert (E <= fexp prec emax (Zdigits2 m1 + E)) as Hlow.
  { destruct (Z.eq_dec Q 0) as [HQz|HQnz].
    - rewrite (HQ0 HQz). apply fexp_ge_emin.
    - rewrite <- (HQpos ltac:(lia)) at 1. apply fexp_mono.
      pose proof (Zdigits2_mono Q m1 ltac:(lia)). lia. }
  destruct (binary_round_aux prec emax s m e l) as [s'|s'| |s' m2 e2].
  - destruct Hr as [-> Hz]. split; [reflexivity|].
    assert (Q = 0) as HQz by lia. split; [exact (HQ0 HQz)|].
    rewrite Hz in Hnear. subst N. lia.
  - exact Hr.
  - exact Hr.
  - destruct Hr as (-> & Hle & He2 & Hcases). split; [reflexivity|].
    assert (canonical_mantissa prec emax m2 e2 = true /\ E <= e2
            /\ Zpos m2 * 2 ^ (e2 - E) = m1) as (Hcan & HEe2 & HK).
    { destruct Hcases as [(-> & Hm2)|(-> & Hq1 & Hm2)].
      - split; [|split; [lia|rewrite Z.sub_diag, Z.pow_0_r; lia]].
        unfold canonical_mantissa. apply Z.eqb_eq.
        change (Zpos (digits2_pos m2)) with (Zdigits2 (Zpos m2)). rewrite Hm2. lia.
      - split; [|split; [lia|replace (E + 1 - E) with 1 by lia; rewrite Z.pow_1_r; lia]].
        unfold canonical_mantissa. apply Z.eqb_eq.
        change (Zpos (digits2_pos m2)) with (Zdigits2 (Zpos m2)).
        pose proof (Zdigits2_double (Zpos m2) ltac:(lia)) as Hdd.
        rewrite Hm2 in Hdd.
        replace (Zdigits2 (Zpos m2) + (E + 1)) with (Zdigits2 m1 + E) by lia. lia. }
    split.
    { unfold bounded. rewrite Hcan. apply Z.leb_le in Hle. rewrite Hle. reflexivity. }
    split; [exact HEe2|]. rewrite HK. split; [exact Hnear|exact Hgrid].
Qed.

(** *** From the integers to the rationals *)

Lemma Qpower2_pos g : (0 < Qpower 2 g)%Q.
Proof. apply Qpower_0_lt. reflexivity. Qed.

Lemma Qpower2_shift M e g :
  g <= e -> (inject_Z M * Qpower 2 e == inject_Z (M * 2 ^ (e - g)) * Qpower 2 g)%Q.
Proof.
  intros Hge. rewrite inject_Z_mult, Zpower_Qpower by lia. change (inject_Z 2) with 2%Q.
  rewrite <- Qmult_assoc, <- Qpower_plus by discriminate.
  replace (e - g + g) with e by lia. reflexivity.
Qed.

(** The distance of a multiple of [2^g] to a number given as a fraction of
    [2^g]. *)
Lemma Qabs_grid A M D g v :
  0 < D -> (v == inject_Z M / inject_Z D * Qpower 2 g)%Q ->
  (Qabs (inject_Z A * Qpower 2 g - v)
   == inject_Z (Z.abs (A * D - M)) * (Qpower 2 g / inject_Z D))%Q.
Proof.
  intros HD Hv. rewrite Hv.
  pose proof (Qpower2_pos g) as Hc. set (c := Qpower 2 g) in *.
  pose proof (inject_Z_pos D HD) as HDq.
  assert (inject_Z A * c - inject_Z M / inject_Z D * c
          == inject_Z (A * D - M) * (c / inject_Z D))%Q as ->.
  { unfold Z.sub. rewrite inject_Z_plus, inject_Z_opp, inject_Z_mult. field.
    apply Qnot_eq_sym, Qlt_not_eq, HDq. }
  rewrite Qabs_Qmult. rewrite (Qabs_pos (c / inject_Z D)).
  - reflexivity.
  - apply Qlt_le_weak, Qlt_shift_div_l; [exact HDq|]. rewrite Qmult_0_l. exact Hc.
Qed.

Lemma Qabs_grid_le A B M D g v :
  0 < D -> (v == inject_Z M / inject_Z D * Qpower 2 g)%Q ->
  Z.abs (A * D - M) <= Z.abs (B * D - M) ->
  (Qabs (inject_Z A * Qpower 2 g - v) <= Qabs (inject_Z B * Qpower 2 g - v))%Q.
Proof.
  intros HD Hv Hle. rewrite (Qabs_grid A M D g v HD Hv), (Qabs_grid B M D g v HD Hv).
  apply Qmult_le_compat_r; [rewrite <- Zle_Qle; exact Hle|].
  apply Qlt_le_weak, Qlt_shift_div_l; [apply inject_Z_pos, HD|].
  rewrite Qmult_0_l. apply Qpower2_pos.
Qed.

(** A mantissa of the format has at most 53 bits and an exponent from
    [emin] on. *)
Lemma bounded_mantissa m e :
  bounded prec emax m e = true -> Zpos m < 2 ^ 53 /\ emin prec emax <= e.
Proof.
  unfold bounded, canonical_mantissa. intros Hb.
  apply andb_prop in Hb as [Hcan _]. apply Z.eqb_eq in Hcan.
  pose proof (digits2_pos_bounds m) as [Hlo Hup].
  assert (Zpos (digits2_pos m) <= 53 /\ emin prec emax <= e) as [Hd He]
    by (unfold fexp, emin, prec, emax in *; lia).
  split; [|exact He].
  assert (2 ^ Zpos (digits2_pos m) <= 2 ^ 53) by (apply Z.pow_le_mono_r; lia). lia.
Qed.

(** A float [K * 2^E] that is at most half a unit of [2^E] away from a
    number is a binary64 nearest to it, when [2^E] is the unit of the format
    at that number: in the lowest binade, or with at least 53 bits before
    the unit. *)
Lemma nearest_binary64_half_unit x K E N D v :
  is_binary64 x = true -> (SF2Q x == inject_Z K * Qpower 2 E)%Q ->
  0 < D -> 0 <= N -> 2 * Z.abs (K * D - N) <= D ->
  E = emin prec emax \/ 2 ^ 52 * D <= N ->
  (v == inject_Z N / inject_Z D * Qpower 2 E)%Q ->
  nearest_binary64 x v.
Proof.
  intros Hx HxK HD HN Hhalf Hgrid Hv. split; [exact Hx|]. intros y Hy.
  rewrite HxK.
  assert (forall Y, (SF2Q y == inject_Z Y * Qpower 2 E)%Q ->
                    (Qabs (inject_Z K * Qpower 2 E - v) <= Qabs (SF2Q y - v))%Q) as Hon.
  { intros Y HyY. rewrite HyY. apply (Qabs_grid_le K Y N D E v HD Hv).
    destruct (Z.eq_dec Y K) as [->|Hne]; [lia|]. nia. }
  destruct y as [sy|sy| |sy my ey]; try discriminate.
  - apply (Hon 0). cbn [SF2Q]. rewrite Qmult_0_l. reflexivity.
  - cbn [is_binary64] in Hy. apply bounded_mantissa in Hy as [Hmy Hey].
    destruct (Z_le_gt_dec E ey) as [Hle|Hgt].
    + apply (Hon (cond_Zopp sy (Zpos my) * 2 ^ (ey - E))).
      cbn [SF2Q]. apply Qpower2_shift. exact Hle.
    + destruct Hgrid as [HE|H52]; [lia|].
      rewrite (Qpower2_shift K E ey) by lia.
      assert (v == inject_Z (N * 2 ^ (E - ey)) / inject_Z D * Qpower 2 ey)%Q as Hv'.
      { rewrite Hv. pose proof (Qpower2_shift N E ey ltac:(lia)) as Hs.
        set (c1 := Qpower 2 E) in *. set (c2 := Qpower 2 ey) in *.
        set (n1 := inject_Z N) in *. set (n2 := inject_Z (N * 2 ^ (E - ey))) in *.
        transitivity (n1 * c1 / inject_Z D)%Q; [unfold Qdiv; ring|].
        rewrite Hs. unfold Qdiv; ring. }
      cbn [SF2Q].
      apply (Qabs_grid_le _ _ (N * 2 ^ (E - ey)) D ey v HD Hv').
      assert (2 <= 2 ^ (E - ey)) as HP.
      { change 2 with (2 ^ 1) at 1. apply Z.pow_le_mono_r; lia. }
      set (P := 2 ^ (E - ey)) in *.
      assert (cond_Zopp sy (Zpos my) <= 2 ^ 53 - 1) as HY
        by (destruct sy; cbn [cond_Zopp]; lia).
      set (Y := cond_Zopp sy (Zpos my)) in *.
      replace (K * P * D - N * P) with ((K * D - N) * P) by ring.
      rewrite Z.abs_mul, (Z.abs_eq P) by lia.
      assert (Y * D <= (2 ^ 53 - 1) * D) by nia.
      assert (2 ^ 52 * D * P <= N * P) by nia.
      assert (2 * (2 ^ 53 - 1) * D <= (2 ^ 53 - 1) * D * P) by nia.
      assert (2 * Z.abs (K * D - N) * P <= D * P) by nia.
      assert (0 <= N * P - Y * D) by nia.
      rewrite (Z.abs_neq (Y * D - N * P)) by lia.
      nia.
Qed.

(** *** The product and the quotient the script computes *)

Lemma nearest_binary64_exact x v :
  is_binary64 x = true -> (SF2Q x == v)%Q -> nearest_binary64 x v.
Proof.
  intros Hx Hv. split; [exact Hx|]. intros y _. rewrite Hv.
  assert (v - v == 0)%Q as -> by ring. apply Qabs_nonneg.
Qed.

(** The number [N / D * 2^e] in units of [2^E]. *)
Lemma Qpower2_units N D e E :
  e <= E -> 0 < D ->
  (inject_Z N / inject_Z D * Qpower 2 e
   == inject_Z N / inject_Z (2 ^ (E - e) * D) * Qpower 2 E)%Q.
Proof.
  intros HeE HD.
  assert (0 < 2 ^ (E - e)) as Hp by (apply Z.pow_pos_nonneg; lia).
  pose proof (inject_Z_pos D HD) as HDq. pose proof (inject_Z_pos _ Hp) as Hpq.
  assert (Qpower 2 E == inject_Z (2 ^ (E - e)) * Qpower 2 e)%Q as ->.
  { rewrite Zpower_Qpower by lia. change (inject_Z 2) with 2%Q.
    rewrite <- Qpower_plus by discriminate. replace (E - e + e) with E by lia.
    reflexivity. }
  rewrite inject_Z_mult. set (c := Qpower 2 e). field.
  split; apply Qnot_eq_sym, Qlt_not_eq; assumption.
Qed.

(** A positive int below 2^53 as a binary64 number. *)
Lemma int_to_float_binary64 n :
  0 <= n < 2 ^ 53 ->
  exists y, is_binary64 y = true /\ (SF2Q y == inject_Z n)%Q.
Proof.
  intros Hn. destruct (Z.eq_dec n 0) as [->|Hne].
  - exists (S754_zero false). split; reflexivity.
  - destruct (int_to_float_exact n ltac:(lia)) as (m & k & _ & Hk & Hm & Hd).
    exists (S754_finite false m (- k)). split.
    + cbn [is_binary64]. unfold bounded, canonical_mantissa. rewrite Hd.
      apply andb_true_intro. split; [apply Z.eqb_eq|apply Z.leb_le];
        unfold fexp, emin, prec, emax; lia.
    + cbn [SF2Q cond_Zopp]. rewrite Hm.
      replace k with (0 - - k) at 1 by lia.
      rewrite <- (Qpower2_shift n 0 (- k)) by lia.
      change (Qpower 2 0) with 1%Q. ring.
Qed.

(** The border the script computes is the floor of a binary64 number
    nearest to the product of the numbers. *)
Lemma border_rounded n r k :
  0 < n < 2 ^ 53 -> py_ge0 r = true ->
  exact_floor_mul n r = Some k -> k < 2 ^ 53 ->
  exists b y,
    outcome_bind (int_mul n r) py_int = Returned b
    /\ nearest_binary64 y (inject_Z n * pynum2Q r) /\ b = Qfloor (SF2Q y).
Proof.
  intros Hn Hr Hk Hk53. unfold exact_floor_mul in Hk.
  destruct r as [z|[s|s| |s mr er]]; cbn [py_finite pynum2Q SF2Q py_ge0] in *;
    try discriminate.
  - assert (Qfloor (inject_Z n * inject_Z z)%Q = k) as Hk' by congruence.
    rewrite <- inject_Z_mult, Qfloor_Z in Hk'. subst k.
    apply Z.leb_le in Hr.
    destruct (int_to_float_binary64 (n * z) ltac:(nia)) as (y & Hy & Hv).
    exists (n * z), y. cbn [int_mul outcome_bind py_int].
    split; [reflexivity|]. split.
    + apply nearest_binary64_exact; [exact Hy|]. rewrite Hv, inject_Z_mult. reflexivity.
    + rewrite (Qfloor_comp _ _ Hv), Qfloor_Z. reflexivity.
  - destruct (int_to_float_exact n Hn) as (mw & kw & Hf & _).
    cbn [int_mul]. rewrite Hf. cbn [outcome_bind SFmul py_int xorb].
    exists 0, (S754_zero s). split; [reflexivity|]. split; [|reflexivity].
    apply nearest_binary64_exact; [reflexivity|]. cbn [SF2Q]. ring.
  - destruct s; [discriminate|]. cbn [cond_Zopp] in *.
    assert (Qfloor (inject_Z n * (inject_Z (Z.pos mr) * Qpower 2 er))%Q = k) as Hk'
      by congruence.
    clear Hk.
    destruct (int_to_float_exact n Hn) as (mw & kw & Hf & Hkw & Hmw & Hdw).
    cbn [int_mul]. rewrite Hf. cbn [outcome_bind SFmul xorb].
    set (mx := Zpos (mw * mr)) in *. set (ex := - kw + er) in *.
    assert (inject_Z n * (inject_Z (Z.pos mr) * Qpower 2 er)
            == inject_Z mx * Qpower 2 ex)%Q as Hv.
    { subst mx ex. rewrite Pos2Z.inj_mul, Hmw.
      rewrite (Qpower2_shift (n * 2 ^ kw * Z.pos mr) (- kw + er) (- kw + er)) by lia.
      rewrite Qmult_assoc, <- inject_Z_mult.
      rewrite (Qpower2_shift (n * Z.pos mr) er (- kw + er)) by lia.
      replace (er - (- kw + er)) with kw by lia.
      rewrite Z.sub_diag, Z.pow_0_r.
      replace (n * 2 ^ kw * Z.pos mr * 1) with (n * Z.pos mr * 2 ^ kw) by ring.
      reflexivity. }
    assert (Qfloor (inject_Z mx * Qpower 2 ex)%Q = k) as Hk''
      by (rewrite <- (Qfloor_comp _ _ Hv); exact Hk').
    rewrite Qfloor_shiftl in Hk''.
    assert (2 ^ 52 <= mx) as Hmx52.
    { subst mx. rewrite Pos2Z.inj_mul.
      pose proof (digits2_pos_bounds mw) as [Hlo _]. rewrite Hdw in Hlo.
      change (53 - 1) with 52 in Hlo. nia. }
    assert (53 <= Zdigits2 mx) as Hdmx by (apply Zdigits2_ge; [exact Hmx52|lia]).
    assert (ex <= 0) as Hex.
    { destruct (Z_le_gt_dec ex 0) as [|Hgt]; [assumption|]. exfalso.
      rewrite <- Hk'' in Hk53. rewrite Z.shiftl_mul_pow2 in Hk53 by lia.
      assert (2 ^ 1 <= 2 ^ ex) by (apply Z.pow_le_mono_r; lia).
      change (2 ^ 1) with 2 in *. change (2 ^ 53) with (2 ^ 52 * 2) in Hk53. nia. }
    assert (Zdigits2 mx + ex <= 53) as Hd.
    { destruct (Z_le_gt_dec (Zdigits2 mx + ex) 53) as [|Hgt]; [assumption|]. exfalso.
      pose proof (Zdigits2_lower mx ltac:(lia)) as Hlo.
      rewrite <- Hk'' in Hk53. rewrite shiftl_nonpos in Hk53 by lia.
      assert (2 ^ 53 <= mx / 2 ^ (- ex)); [|lia].
      apply Z.div_le_lower_bound; [apply Z.pow_pos_nonneg; lia|].
      rewrite <- Z.pow_add_r by lia.
      etransitivity; [|exact Hlo]. apply Z.pow_le_mono_r; lia. }
    assert (ex <= fexp prec emax (Zdigits2 mx + ex)) as Hfe
      by (unfold fexp, emin, prec, emax; lia).
    pose proof (binary_round_aux_nearest false mx ex loc_Exact 0 1
                  ltac:(lia) Hfe ltac:(lia) ltac:(lia) eq_refl) as Hround.
    cbv zeta in Hround.
    set (E := fexp prec emax (Zdigits2 mx + ex)) in *.
    assert (E <= 0) as HE0 by (subst E; unfold fexp, emin, prec, emax; lia).
    replace (mx * 1 + 0) with mx in Hround by ring.
    assert (0 < 2 ^ (E - ex) * 1) as HD'
      by (rewrite Z.mul_1_r; apply Z.pow_pos_nonneg; lia).
    assert (inject_Z n * (inject_Z (Z.pos mr) * Qpower 2 er)
            == inject_Z mx / inject_Z (2 ^ (E - ex) * 1) * Qpower 2 E)%Q as Hv'.
    { rewrite Hv. rewrite <- (Qpower2_units mx 1 ex E) by lia.
      unfold Qdiv. change (/ inject_Z 1)%Q with 1%Q. ring. }
    destruct (binary_round_aux prec emax false mx ex loc_Exact) as [s'|s'| |s' m2 e2].
    + destruct Hround as (_ & HEmin & Hhalf).
      exists 0, (S754_zero s'). cbn [py_int SF2Q]. split; [reflexivity|].
      split; [|reflexivity].
      apply (nearest_binary64_half_unit _ 0 E mx (2 ^ (E - ex) * 1)); try lia.
      * reflexivity.
      * cbn [SF2Q]. ring.
      * exact Hv'.
    + destruct Hround as [_ Hinf]. unfold prec, emax in Hinf. lia.
    + contradiction.
    + destruct Hround as (-> & Hb & HEe2 & Hhalf & Hgrid).
      exists (Z.shiftl (Zpos m2) e2), (S754_finite false m2 e2).
      cbn [py_int cond_Zopp]. split; [reflexivity|]. split.
      * apply (nearest_binary64_half_unit _ (Zpos m2 * 2 ^ (e2 - E)) E mx
                 (2 ^ (E - ex) * 1)); try lia.
        -- exact Hb.
        -- cbn [SF2Q cond_Zopp]. apply Qpower2_shift. exact HEe2.
        -- exact Hv'.
      * cbn [SF2Q cond_Zopp]. rewrite Qfloor_shiftl. reflexivity.
Qed.


(** ** The size of the image and the printed ratio *)







(** ** A ratio that is not positive *)

Lemma binary_round_aux_opp s m e l :
  binary_round_aux prec emax (negb s) m e l = SFopp (binary_round_aux prec emax s m e l).
Proof.
  unfold binary_round_aux.
  destruct (shr_fexp prec emax m e l) as [mrs1 e1].
  destruct (shr_fexp prec emax _ e1 loc_Exact) as [mrs2 e2].
  destruct (shr_m mrs2); [reflexivity| |reflexivity].
  destruct (e2 <=? emax - prec); reflexivity.
Qed.

Lemma py_int_opp y :
  py_int (PyFloat (SFopp y))
  = match py_int (PyFloat y) with Returned z => Returned (- z) | Raised e => Raised e end.
Proof.
  destruct y as [s|s| |[] m e]; cbn [SFopp py_int negb cond_Zopp];
    rewrite ?Z.opp_involutive; reflexivity.
Qed.

(** The border for a negative float is the opposite of the border for its
    absolute value. *)
Lemma border_opp n mr er :
  outcome_bind (int_mul n (PyFloat (S754_finite true mr er))) py_int
  = match outcome_bind (int_mul n (PyFloat (S754_finite false mr er))) py_int with
    | Returned z => Returned (- z)
    | Raised e => Raised e
    end.
Proof.
  cbn [int_mul]. destruct (int_to_float n) as [fn|e]; [|reflexivity].
  cbn [outcome_bind].
  assert (SFmul prec emax fn (S754_finite true mr er)
          = SFopp (SFmul prec emax fn (S754_finite false mr er))) as ->.
  { destruct fn as [s|s| |s m e]; cbn [SFmul SFopp]; try reflexivity;
      try (destruct s; reflexivity).
    replace (xorb s true) with (negb (xorb s false)) by (destruct s; reflexivity).
    apply binary_round_aux_opp. }
  apply py_int_opp.
Qed.

Lemma is_binary64_opp x : is_binary64 (SFopp x) = is_binary64 x.
Proof. destruct x; reflexivity. Qed.

Lemma SF2Q_opp x : (SF2Q (SFopp x) == - SF2Q x)%Q.
Proof.
  destruct x as [s|s| |s m e]; cbn [SFopp SF2Q]; try reflexivity.
  destruct s; cbn [negb cond_Zopp]; rewrite ?inject_Z_opp; ring.
Qed.

Lemma nearest_binary64_opp x v :
  nearest_binary64 x v -> nearest_binary64 (SFopp x) (- v).
Proof.
  intros [Hx Hnear]. split; [rewrite is_binary64_opp; exact Hx|].
  intros y Hy. specialize (Hnear (SFopp y)). rewrite is_binary64_opp in Hnear.
  specialize (Hnear Hy). rewrite !SF2Q_opp in *.
  assert (- SF2Q x - - v == - (SF2Q x - v))%Q as -> by ring.
  assert (SF2Q y - - v == - (- SF2Q y - v))%Q as -> by ring.
  rewrite !Qabs_opp. exact Hnear.
Qed.

(** The border the script computes for a ratio r <= 0 is the ceiling of a
    binary64 number nearest to the product of the numbers: the ceiling of
    the product or, for a float ratio, the integer before it. *)
Lemma border_rounded_neg n r c :
  0 < n < 2 ^ 53 -> py_le0 r = true ->
  exact_ceil_mul n r = Some c -> - 2 ^ 53 < c ->
  exists b,
    outcome_bind (int_mul n r) py_int = Returned b
    /\ rounded_ceil_mul n r b
    /\ (b = c \/ (b = c - 1 /\ exists x, r = PyFloat x)).
Proof.
  intros Hn Hr Hc Hc53. unfold exact_ceil_mul in Hc.
  destruct r as [z|[s|s| |s mr er]]; cbn [py_finite pynum2Q SF2Q py_le0] in *;
    try discriminate.
  - assert (Qceiling (inject_Z n * inject_Z z)%Q = c) as Hc' by congruence.
    rewrite <- inject_Z_mult, Qceiling_Z in Hc'. subst c.
    apply Z.leb_le in Hr.
    destruct (int_to_float_binary64 (- (n * z)) ltac:(nia)) as (y & Hy & Hv).
    exists (n * z). cbn [int_mul outcome_bind py_int].
    split; [reflexivity|]. split; [|left; reflexivity].
    assert (SF2Q (SFopp y) == inject_Z (n * z))%Q as Hv'.
    { rewrite SF2Q_opp, Hv, inject_Z_opp. ring. }
    exists (SFopp y). split.
    + apply nearest_binary64_exact; [rewrite is_binary64_opp; exact Hy|].
      rewrite Hv', inject_Z_mult. reflexivity.
    + rewrite (Qceiling_comp _ _ Hv'), Qceiling_Z. reflexivity.
  - assert (Qceiling (inject_Z n * 0)%Q = c) as Hc' by congruence.
    rewrite (Qceiling_comp _ (inject_Z 0)) in Hc' by ring. rewrite Qceiling_Z in Hc'.
    subst c.
    destruct (int_to_float_exact n Hn) as (mw & kw & Hf & _).
    cbn [int_mul]. rewrite Hf. cbn [outcome_bind SFmul py_int xorb].
    exists 0. split; [reflexivity|]. split; [|left; reflexivity].
    exists (S754_zero s). split; [|reflexivity].
    apply nearest_binary64_exact; [reflexivity|]. cbn [pynum2Q SF2Q]. ring.
  - destruct s; [|discriminate]. cbn [cond_Zopp] in *.
    assert (Qceiling (inject_Z n * (inject_Z (- Z.pos mr) * Qpower 2 er))%Q = c) as Hc'
      by congruence.
    clear Hc.
    set (v := (inject_Z n * (inject_Z (Z.pos mr) * Qpower 2 er))%Q) in *.
    assert (inject_Z n * (inject_Z (- Z.pos mr) * Qpower 2 er) == - v)%Q as Hneg
      by (subst v; rewrite inject_Z_opp; ring).
    assert (exact_floor_mul n (PyFloat (S754_finite false mr er)) = Some (- c)) as Hk.
    { unfold exact_floor_mul. cbn [py_finite pynum2Q SF2Q cond_Zopp]. f_equal.
      fold v. rewrite <- Hc'. unfold Qceiling. rewrite Z.opp_involutive.
      apply Qfloor_comp. rewrite Hneg. ring. }
    assert (py_ge0 (PyFloat (S754_finite false mr er)) = true) as Hge by reflexivity.
    destruct (border_bracket n _ (- c) Hn Hge Hk ltac:(lia)) as (b1 & Hb1 & Hb1k).
    destruct (border_rounded n _ (- c) Hn Hge Hk ltac:(lia))
      as (b2 & y & Hb2 & Hy & Hfy).
    assert (b2 = b1) as -> by congruence.
    exists (- b1). split; [rewrite border_opp, Hb1; reflexivity|]. split.
    + exists (SFopp y). split.
      * cbn [pynum2Q SF2Q cond_Zopp] in *. fold v in Hy.
        destruct (nearest_binary64_opp y v Hy) as [Hbin Hnear]. split; [exact Hbin|].
        intros y' Hy'. specialize (Hnear y' Hy').
        rewrite Hneg. exact Hnear.
      * unfold Qceiling. f_equal. rewrite Hfy. apply Qfloor_comp.
        rewrite SF2Q_opp. ring.
    + destruct Hb1k as [->|[-> _]]; [left; lia|right].
      split; [lia|eexists; reflexivity].
Qed.

(** X8. For a border_ratio r <= 0 and a valid input image, [int] rounds
    towards zero: an image written by [add_border] has width w + 2*cw and
    height h + 2*ch, where cw and ch are the ceilings of the products the
    script computes, so it is not larger than the input. On a side below
    2^53 whose product with r, taken on the numbers, has a ceiling above
    -2^53, the border is the ceiling of a binary64 number nearest to that
    product: cw is ceil(w*r) or, for a float r, ceil(w*r) - 1, and ch
    likewise. The image is written whenever its width and height are
    positive and the host lets the Pillow calls through, the save being that
    of an image that is not empty. *)
Theorem add_border_negative_ratio h inp out r w img :
  files w !! inp = Some (FImage img) ->
  0 < width img -> 0 < height img -> py_le0 r = true ->
  let w' := snd (add_border h inp out r w) in
  (forall p img', Wrote p (FImage img') ∈ new_events w w' ->
     exists cw ch,
       ceil_mul (width img) r = Some cw /\ ceil_mul (height img) r = Some ch
       /\ width img' = width img + 2 * cw /\ height img' = height img + 2 * ch
       /\ width img' <= width img /\ height img' <= height img
       /\ (forall nw,
             width img < 2 ^ 53 ->
             exact_ceil_mul (width img) r = Some nw -> - 2 ^ 53 < nw ->
             rounded_ceil_mul (width img) r cw
             /\ (cw = nw \/ (cw = nw - 1 /\ exists x, r = PyFloat x)))
       /\ (forall nh,
             height img < 2 ^ 53 ->
             exact_ceil_mul (height img) r = Some nh -> - 2 ^ 53 < nh ->
             rounded_ceil_mul (height img) r ch
             /\ (ch = nh \/ (ch = nh - 1 /\ exists x, r = PyFloat x))))
  /\ (forall cw ch,
        open_fault h inp = None ->
        ceil_mul (width img) r = Some cw -> ceil_mul (height img) r = Some ch ->
        0 < width img + 2 * cw -> 0 < height img + 2 * ch ->
        expand_fault h img (cw, ch) = None ->
        (forall i, 0 < width i -> 0 < height i -> save_fault h i out = None) ->
        exists img', Wrote out (FImage img') ∈ new_events w w').
Proof.
  intros Hfile Hw Hh Hr w'. split.
  - intros p img' Hin.
    destruct (add_border_written _ _ _ _ _ _ _ _ Hfile Hin)
      as (_ & _ & bw & bh & Hbw & Hbh & Hwd & Hht).
    pose proof Hbw as Hcw. pose proof Hbh as Hch.
    apply border_ceil in Hcw, Hch; try assumption.
    pose proof (ceil_mul_nonpos _ _ _ Hw Hr Hcw) as Hcw0.
    pose proof (ceil_mul_nonpos _ _ _ Hh Hr Hch) as Hch0.
    exists bw, bh.
    split; [exact Hcw|]. split; [exact Hch|]. split; [exact Hwd|]. split; [exact Hht|].
    split; [lia|]. split; [lia|].
    split; intros n Hn53 Hn Hnlow.
    + destruct (border_rounded_neg (width img) r n ltac:(lia) Hr Hn Hnlow)
        as (b & Hb & Hround & Hcases).
      assert (b = bw) as <- by congruence. split; assumption.
    + destruct (border_rounded_neg (height img) r n ltac:(lia) Hr Hn Hnlow)
        as (b & Hb & Hround & Hcases).
      assert (b = bh) as <- by congruence. split; assumption.
  - intros cw ch Hof Hcw Hch Hw0 Hh0 Hef Hsf.
    apply border_ceil in Hcw, Hch; try assumption.
    apply (add_border_writes_enlarged h inp out r w img cw ch); try assumption; try lia.
    intros i Hi1 Hi2. apply Hsf; lia.
Qed.

Lemma add_border_negative_ratio_witness :
  let r := PyFloat (S754_finite true 4503599627370496 (-54)) in
  let w' := snd (add_border quiet_host "public/tag25h9-origin.png"
                   "public/tag-with-border.png" r tag_world) in
  (forall p img', Wrote p (FImage img') ∈ new_events tag_world w' ->
     exists cw ch,
       ceil_mul (width tag) r = Some cw /\ ceil_mul (height tag) r = Some ch
       /\ width img' = width tag + 2 * cw /\ height img' = height tag + 2 * ch
       /\ width img' <= width tag /\ height img' <= height tag
       /\ (forall nw,
             width tag < 2 ^ 53 ->
             exact_ceil_mul (width tag) r = Some nw -> - 2 ^ 53 < nw ->
             rounded_ceil_mul (width tag) r cw
             /\ (cw = nw \/ (cw = nw - 1 /\ exists x, r = PyFloat x)))
       /\ (forall nh,
             height tag < 2 ^ 53 ->
             exact_ceil_mul (height tag) r = Some nh -> - 2 ^ 53 < nh ->
             rounded_ceil_mul (height tag) r ch
             /\ (ch = nh \/ (ch = nh - 1 /\ exists x, r = PyFloat x))))
  /\ (forall cw ch,
        open_fault quiet_host "public/tag25h9-origin.png" = None ->
        ceil_mul (width tag) r = Some cw -> ceil_mul (height tag) r = Some ch ->
        0 < width tag + 2 * cw -> 0 < height tag + 2 * ch ->
        expand_fault quiet_host tag (cw, ch) = None ->
        (forall i, 0 < width i -> 0 < height i ->
                   save_fault quiet_host i "public/tag-with-border.png" = None) ->
        exists img', Wrote "public/tag-with-border.png" (FImage img')
                       ∈ new_events tag_world w').
Proof.
  apply (add_border_negative_ratio quiet_host "public/tag25h9-origin.png"
           "public/tag-with-border.png"
           (PyFloat (S754_finite true 4503599627370496 (-54))) tag_world tag).
  - vm_compute. reflexivity.
  - vm_compute. reflexivity.
  - vm_compute. reflexivity.
  - vm_compute. reflexivity.
Defined.
